(** * Warehouse slot allocation: a shallow embedding

    The development embeds the pure allocation engine of the warehouse
    application, [warehouse-logic] ([LEVEL_MAX_WEIGHTS], [getLevelId],
    [getLevelWeight], [canAcceptWeight], [calculateDistanceScore],
    [calculateWeightScore] and [findOptimalLocation]), and states the
    properties of the specification over that embedding.  It then
    embeds the code around the engine: the data-access layer of the
    locations ([getAvailableLocations], [addLocation], [updateLocation],
    [initializeLocationIndexes]), the weight written when a location is
    scanned, the location statistics of the dashboard, and the
    validation of items and actions ([addItem], [addAction],
    [createGoodsInAction], [createPickAction]).

    Modelling conventions.
    - A JavaScript number is either a finite value, kept as an exact
      rational, or [NaN].  Rounding to binary64 and the two infinities
      are outside the model; [NaN] is kept because the code produces it
      (a lookup of an unknown tier, [parseInt] of a non-numeric string,
      [charCodeAt] of an empty string).  The statements about sums and
      limits are therefore phrased with the operations of the program
      ([num_add], [num_le], ...), or restricted to whole numbers within
      2^53, on which those operations do not round.
    - A JavaScript string is a [string]: a sequence of code units below
      256.
    - An object used as a dictionary is a [gmap] with string keys.
    - A [TypeError] is an explicit outcome of the [js] monad, a thrown
      [Error] an outcome of [attempt].
    - A function that reads or writes the document store is a function
      of the documents read, and returns the documents written. *)

From Stdlib Require Import Ascii String QArith Qabs Lqa Sorted.
From stdpp Require Import gmap strings list fin_maps.

Local Open Scope Z_scope.
Local Open Scope Q_scope.
Local Open Scope string_scope.
Local Open Scope list_scope.

(** ** Numbers *)

Inductive number : Type :=
| Num (q : Q)
| NaN.

Definition num_add (a b : number) : number :=
  match a, b with Num x, Num y => Num (x + y) | _, _ => NaN end.

Definition num_sub (a b : number) : number :=
  match a, b with Num x, Num y => Num (x - y) | _, _ => NaN end.

Definition num_mul (a b : number) : number :=
  match a, b with Num x, Num y => Num (x * y) | _, _ => NaN end.

(** The quotient by zero is an infinity (or [NaN]) in JavaScript; the
    model has no infinities and answers [NaN].  The only divisors of the
    program are the entries of [LEVEL_MAX_WEIGHTS], none of which is
    zero. *)
Definition num_div (a b : number) : number :=
  match a, b with
  | Num x, Num y => if Qeq_bool y 0 then NaN else Num (x / y)
  | _, _ => NaN
  end.

Definition num_abs (a : number) : number :=
  match a with Num x => Num (Qabs x) | NaN => NaN end.

(** [a > b], [a < b], [a === b] and [a !== b]: every comparison with
    [NaN] is false, except [!==] which is true. *)
Definition num_gt (a b : number) : bool :=
  match a, b with Num x, Num y => negb (Qle_bool x y) | _, _ => false end.

Definition num_lt (a b : number) : bool := num_gt b a.

Definition num_le (a b : number) : bool :=
  match a, b with Num x, Num y => Qle_bool x y | _, _ => false end.

Definition num_strict_eq (a b : number) : bool :=
  match a, b with Num x, Num y => Qeq_bool x y | _, _ => false end.

Definition num_strict_neq (a b : number) : bool := negb (num_strict_eq a b).

(** Equality of numbers as values: rationals up to [Qeq], and [NaN]
    with itself (used in statements only; the program never compares
    that way). *)
Definition num_same (a b : number) : Prop :=
  match a, b with
  | Num x, Num y => x == y
  | NaN, NaN => True
  | _, _ => False
  end.

Definition is_num (a : number) : Prop :=
  match a with Num _ => True | NaN => False end.

Definition Z2num (z : Z) : number := Num (inject_Z z).

(** [Number.MAX_SAFE_INTEGER], 2^53 - 1. *)
Definition MAX_SAFE_INTEGER : number := Z2num 9007199254740991.

(** ** Strings: [charCodeAt] and [parseInt] *)

(** [s.charCodeAt(0)]: the first code unit, [NaN] for the empty string. *)
Definition charCodeAt0 (s : string) : number :=
  match s with
  | EmptyString => NaN
  | String c _ => Z2num (Z.of_nat (nat_of_ascii c))
  end.

(** White space skipped by [parseInt] (the code units below 256 of
    ECMAScript's StrWhiteSpaceChar). *)
Definition isWhiteSpace (c : ascii) : bool :=
  let n := nat_of_ascii c in
  ((n =? 9) || (n =? 10) || (n =? 11) || (n =? 12) || (n =? 13)
   || (n =? 32) || (n =? 160))%nat.

Fixpoint trimStart (s : string) : string :=
  match s with
  | String c rest => if isWhiteSpace c then trimStart rest else s
  | EmptyString => EmptyString
  end.

(** Value of a digit in radix 36 notation restricted to what radix 10
    and 16 need: 0-9, a-f, A-F. *)
Definition digitValue (c : ascii) : option Z :=
  let n := Z.of_nat (nat_of_ascii c) in
  if ((48 <=? n) && (n <=? 57))%Z then Some (n - 48)%Z
  else if ((97 <=? n) && (n <=? 102))%Z then Some (n - 87)%Z
  else if ((65 <=? n) && (n <=? 70))%Z then Some (n - 55)%Z
  else None.

(** The value of the longest prefix of radix-[radix] digits, [None]
    when that prefix is empty. *)
Fixpoint parseDigits (radix : Z) (s : string) (acc : option Z) : option Z :=
  match s with
  | EmptyString => acc
  | String c rest =>
      match digitValue c with
      | Some d =>
          if (d <? radix)%Z
          then parseDigits radix rest (Some (default 0%Z acc * radix + d)%Z)
          else acc
      | None => acc
      end
  end.

(** [parseInt(s)] with no radix argument. *)
Definition parseInt (s : string) : number :=
  let s1 := trimStart s in
  let '(sign, s2) :=
    match s1 with
    | String "-" r => ((-1)%Z, r)
    | String "+" r => (1%Z, r)
    | _ => (1%Z, s1)
    end in
  let '(radix, s3) :=
    match s2 with
    | String "0" (String "x" r) => (16%Z, r)
    | String "0" (String "X" r) => (16%Z, r)
    | _ => (10%Z, s2)
    end in
  match parseDigits radix s3 None with
  | None => NaN
  | Some n => Z2num (sign * n)
  end.

(** ** Outcomes: a value or a thrown [TypeError] *)

Inductive js (A : Type) : Type :=
| Return (a : A)
| TypeError.
Arguments Return {A} a.
Arguments TypeError {A}.

Definition js_bind {A B : Type} (m : js A) (k : A -> js B) : js B :=
  match m with Return a => k a | TypeError => TypeError end.

Notation "'let*' x ':=' m 'in' k" := (js_bind m (fun x => k))
  (at level 10, x name, m at level 100, k at level 200).

(** [xs.filter(f)] and [xs.map(f)] with a callback that may throw. *)
Fixpoint js_filter {A : Type} (f : A -> js bool) (xs : list A) : js (list A) :=
  match xs with
  | [] => Return []
  | x :: rest =>
      let* keep := f x in
      let* kept := js_filter f rest in
      Return (if keep then x :: kept else kept)
  end.

Fixpoint js_map {A B : Type} (f : A -> js B) (xs : list A) : js (list B) :=
  match xs with
  | [] => Return []
  | x :: rest =>
      let* y := f x in
      let* ys := js_map f rest in
      Return (y :: ys)
  end.

(** ** Data model *)

Record Location : Type := mkLocation {
  id : string;
  code : string;
  row : string;
  bay : string;
  level : string;
  location : string;
  maxWeight : number;
  (** [None] is a missing ([undefined]) field. *)
  currentWeight : option number;
  available : bool;
  verified : bool
}.

(** Weight limits per level (in kg). *)
Definition LEVEL_MAX_WEIGHTS : gmap string Q :=
  list_to_map
    [("0", 2000#1); ("1", 1500#1); ("2", 1000#1); ("3", 750#1); ("4", 500#1)].

(** A property read used as a number: [undefined] converts to [NaN],
    and so does, in the comparisons, differences and quotients where
    the program uses the value, the function or object that a read
    under an inherited property name yields. *)
Definition toNumber (v : option Q) : number :=
  match v with Some q => Num q | None => NaN end.

Definition getLevelId (loc : Location) : string :=
  row loc ++ bay loc ++ "-" ++ level loc.

(** [v || 0] on an optional number: [undefined], [NaN] and [0] are
    falsy. *)
Definition orZero (v : option number) : Q :=
  match v with
  | Some (Num q) => if Qeq_bool q 0 then 0 else q
  | Some NaN => 0
  | None => 0
  end.

Definition getLevelWeight (locations : list Location) : Q :=
  fold_left (fun total loc => total + orZero (currentWeight loc)) locations 0.

Definition canAcceptWeight
    (location : Location) (weight : number) (levelLocations : list Location)
  : bool :=
  (* Check if location is available and verified *)
  if negb (available location) || negb (verified location) then false
  else
    (* Calculate current level weight including the new weight *)
    let currentLevelWeight := Num (getLevelWeight levelLocations) in
    let newLevelWeight := num_add currentLevelWeight weight in
    (* Check level weight limit *)
    let levelMaxWeight := toNumber (LEVEL_MAX_WEIGHTS !! level location) in
    if num_gt newLevelWeight levelMaxWeight then false else true.

(** Distance score (lower is better). *)
Definition calculateDistanceScore (row bay : string) : number :=
  let rowScore :=
    num_mul (num_sub (charCodeAt0 row) (charCodeAt0 "A")) (Z2num 100) in
  let bayScore := num_sub (parseInt bay) (Z2num 1) in
  num_add rowScore bayScore.

(** Weight suitability score (lower is better). *)
Definition calculateWeightScore
    (weight : number) (level : string) (levelLocations : list Location)
  : number :=
  let levelNum := parseInt level in
  let levelMaxWeight := toNumber (LEVEL_MAX_WEIGHTS !! level) in
  let currentLevelWeight := Num (getLevelWeight levelLocations) in
  let newLevelWeight := num_add currentLevelWeight weight in
  (* Heavy penalty for exceeding level weight limits *)
  if num_gt newLevelWeight levelMaxWeight then MAX_SAFE_INTEGER
  else
    (* Penalize putting heavy items on higher levels *)
    let heightPenalty := num_mul (num_mul weight levelNum) (Z2num 2) in
    (* Penalize inefficient use of weight capacity *)
    let capacityScore := num_abs (num_sub levelMaxWeight newLevelWeight) in
    (* Additional penalty for nearly full levels *)
    let levelUtilization := num_div newLevelWeight levelMaxWeight in
    let levelPenalty := num_mul levelUtilization (Z2num 1000) in
    num_add (num_add heightPenalty capacityScore) levelPenalty.

(** *** The steps of [findOptimalLocation] *)

(** [locations.filter(loc => loc.available && loc.verified)]. *)
Definition availableLocations (locations : list Location) : list Location :=
  List.filter (fun loc => available loc && verified loc) locations.

(** One step of the [reduce] that groups locations by level: create
    the group when the key is new, then push the location. *)
Definition groupStep
    (groups : gmap string (list Location)) (loc : Location)
  : gmap string (list Location) :=
  let levelKey := getLevelId loc in
  let groups1 :=
    match groups !! levelKey with
    | Some _ => groups
    | None => <[levelKey := []]> groups
    end in
  alter (fun group => group ++ [loc]) levelKey groups1.

Definition levelGroups (locations : list Location)
  : gmap string (list Location) :=
  fold_left groupStep (availableLocations locations) ∅.

(** [levelGroups[levelKey]] handed to a function that reduces it: a
    missing group is [undefined], and [undefined.reduce] throws.  Both
    callbacks of [findOptimalLocation] reduce the group of a location
    that is available and verified, so the throw is placed at the
    lookup. *)
Definition groupOf
    (groups : gmap string (list Location)) (levelKey : string)
  : js (list Location) :=
  match groups !! levelKey with
  | Some group => Return group
  | None => TypeError
  end.

(** The callback of the filter on level capacity. *)
Definition acceptsInLevel
    (groups : gmap string (list Location)) (weight : number)
    (location : Location) : js bool :=
  let levelKey := getLevelId location in
  let* levelLocations := groupOf groups levelKey in
  Return (canAcceptWeight location weight levelLocations).

Definition validLocations (locations : list Location) (weight : number)
  : js (list Location) :=
  js_filter (acceptsInLevel (levelGroups locations) weight)
            (availableLocations locations).

(** A scored candidate, [{ location, score }]. *)
Record Scored : Type := mkScored {
  scoredLocation : Location;
  score : number
}.

(** The callback of the map that scores a location. *)
Definition scoreLocation
    (groups : gmap string (list Location)) (weight : number)
    (location : Location) : js Scored :=
  let levelKey := getLevelId location in
  let* levelLocations := groupOf groups levelKey in
  let distanceScore := calculateDistanceScore (row location) (bay location) in
  let weightScore := calculateWeightScore weight (level location) levelLocations in
  Return {| scoredLocation := location;
            score := num_add distanceScore weightScore |}.

(** [xs.sort(comparefn)]: a stable sort.  A positive [comparefn x y]
    puts [x] after [y]; zero, a negative value and [NaN] leave [x]
    before [y].  With a comparator that is a consistent ordering every
    stable sort gives this result; for the others (a [NaN] among the
    scores) ECMAScript leaves the order to the implementation, and the
    model takes the one of a straight insertion sort. *)
Fixpoint insert {A : Type} (comparefn : A -> A -> number) (x : A)
    (sorted : list A) : list A :=
  match sorted with
  | [] => [x]
  | y :: rest =>
      if num_gt (comparefn x y) (Z2num 0)
      then y :: insert comparefn x rest
      else x :: sorted
  end.

Definition sort {A : Type} (comparefn : A -> A -> number) (xs : list A)
  : list A :=
  fold_right (insert comparefn) [] xs.

Definition byScore (a b : Scored) : number := num_sub (score a) (score b).

Definition notSentinel (scored : Scored) : bool :=
  num_strict_neq (score scored) MAX_SAFE_INTEGER.

Definition findOptimalLocation (locations : list Location) (weight : number)
  : js (option Location) :=
  (* Filter for available and verified locations first *)
  if (length (availableLocations locations) =? 0)%nat then Return None
  else
    (* Filter locations that can accept the weight *)
    let* valid := validLocations locations weight in
    if (length valid =? 0)%nat then Return None
    else
      (* Score each location *)
      let* scoredAll :=
        js_map (scoreLocation (levelGroups locations) weight) valid in
      let scoredLocations := List.filter notSentinel scoredAll in
      if (length scoredLocations =? 0)%nat then Return None
      else
        (* Sort by score (lower is better) and return the best location *)
        match sort byScore scoredLocations with
        | best :: _ => Return (Some (scoredLocation best))
        | [] => TypeError
        end.

(** ** Descriptions used in the statements *)

(** The level of a location within one call: the available and verified
    input locations that share its level key, in input order. *)
Definition levelOf (locations : list Location) (location : Location)
  : list Location :=
  List.filter (fun loc => String.eqb (getLevelId loc) (getLevelId location))
              (availableLocations locations).

(** The weight the level of [location] would hold after the placement. *)
Definition newLevelWeightOf
    (locations : list Location) (weight : number) (location : Location)
  : number :=
  num_add (Num (getLevelWeight (levelOf locations location))) weight.

(** The location passes the capacity filter of the call. *)
Definition eligible
    (locations : list Location) (weight : number) (location : Location)
  : bool :=
  canAcceptWeight location weight (levelOf locations location).

(** The score the call gives to a location. *)
Definition scoreOf
    (locations : list Location) (weight : number) (location : Location)
  : number :=
  num_add (calculateDistanceScore (row location) (bay location))
          (calculateWeightScore weight (level location)
                                (levelOf locations location)).

Definition scoredOf
    (locations : list Location) (weight : number) (location : Location)
  : Scored :=
  {| scoredLocation := location; score := scoreOf locations weight location |}.

(** The candidates that pass the capacity filter, and those of them that
    are ranked (their score is not the sentinel). *)
Definition candidates (locations : list Location) (weight : number)
  : list Location :=
  List.filter (eligible locations weight) (availableLocations locations).

Definition ranked (locations : list Location) (weight : number)
  : list Scored :=
  List.filter notSentinel
              (List.map (scoredOf locations weight) (candidates locations weight)).

(** The head of [sort comparefn xs], computed in one pass from the
    right: the element kept so far is replaced by an earlier one unless
    the earlier one compares greater. *)
Definition better {A : Type} (comparefn : A -> A -> number)
    (x : A) (kept : option A) : option A :=
  match kept with
  | None => Some x
  | Some h => if num_gt (comparefn x h) (Z2num 0) then Some h else Some x
  end.

Definition first_best {A : Type} (comparefn : A -> A -> number) (xs : list A)
  : option A :=
  fold_right (better comparefn) None xs.

(** The level of [location] stays within its configured maximum after
    the placement of [weight]. *)
Definition withinCap
    (locations : list Location) (weight : Q) (location : Location) : Prop :=
  exists levelMaxWeight,
    LEVEL_MAX_WEIGHTS !! level location = Some levelMaxWeight
    /\ getLevelWeight (levelOf locations location) + weight <= levelMaxWeight.

(** The placement of [weight] would push the level of [location] above
    its maximum: the test both [canAcceptWeight] and
    [calculateWeightScore] make. *)
Definition breachesCap
    (locations : list Location) (weight : number) (location : Location)
  : bool :=
  num_gt (newLevelWeightOf locations weight location)
         (toNumber (LEVEL_MAX_WEIGHTS !! level location)).

(** *** The score as the specification words it *)



(** requiredWeight * tier * 2 + |levelMaxWeight - newLevelWeight|
    + (newLevelWeight / levelMaxWeight) * 1000. *)
Definition specWeightScore
    (requiredWeight tier levelMaxWeight newLevelWeight : number) : number :=
  num_add
    (num_add (num_mul (num_mul requiredWeight tier) (Z2num 2))
             (num_abs (num_sub levelMaxWeight newLevelWeight)))
    (num_mul (num_div newLevelWeight levelMaxWeight) (Z2num 1000)).


(** *** The simplified engine of the design notes

    The engine that relies on the eligibility filter alone: the scorer
    has no over-capacity branch and the scored list is not filtered. *)
Definition calculateWeightScoreTotal
    (weight : number) (level : string) (levelLocations : list Location)
  : number :=
  specWeightScore weight (parseInt level)
                  (toNumber (LEVEL_MAX_WEIGHTS !! level))
                  (num_add (Num (getLevelWeight levelLocations)) weight).

Definition scoreLocationSimplified
    (groups : gmap string (list Location)) (weight : number)
    (location : Location) : js Scored :=
  let levelKey := getLevelId location in
  let* levelLocations := groupOf groups levelKey in
  let distanceScore := calculateDistanceScore (row location) (bay location) in
  let weightScore :=
    calculateWeightScoreTotal weight (level location) levelLocations in
  Return {| scoredLocation := location;
            score := num_add distanceScore weightScore |}.

Definition findOptimalLocationSimplified
    (locations : list Location) (weight : number) : js (option Location) :=
  if (length (availableLocations locations) =? 0)%nat then Return None
  else
    let* valid := validLocations locations weight in
    if (length valid =? 0)%nat then Return None
    else
      let* scoredLocations :=
        js_map (scoreLocationSimplified (levelGroups locations) weight) valid in
      match sort byScore scoredLocations with
      | best :: _ => Return (Some (scoredLocation best))
      | [] => TypeError
      end.

(** ** Sample data *)

(** A slot given by its coordinates, weight and flags. *)
Definition slot (r b l : string) (cw : Q) (a v : bool) : Location :=
  {| id := r ++ b ++ "-" ++ l; code := r ++ b ++ "-" ++ l;
     row := r; bay := b; level := l; location := "1";
     maxWeight := toNumber (LEVEL_MAX_WEIGHTS !! l);
     currentWeight := Some (Num cw); available := a; verified := v |}.

Definition groundSlot : Location := slot "A" "01" "0" 0 true true.
Definition firstSlot : Location := slot "A" "01" "1" 0 true true.
Definition secondBaySlot : Location := slot "A" "02" "0" 0 true true.
Definition closedSlot : Location := slot "A" "01" "0" 1900 false true.

Definition loadedSlot : Location := slot "A" "01" "0" 1800 true true.
Definition reservedSlot : Location := slot "A" "01" "0" 0 false true.

(** A slot of a tier that [LEVEL_MAX_WEIGHTS] does not list. *)
Definition unknownTierSlot : Location := slot "A" "01" "5" 0 true true.

(** Two slots far down row A: with 2000 kg the first scores exactly
    [MAX_SAFE_INTEGER], the second one more. *)
Definition sentinelSlot : Location :=
  slot "A" "9007199254739992" "0" 0 true true.
Definition beyondSlot : Location :=
  slot "A" "9007199254739993" "0" 0 true true.

(** ** The data-access layer ([firebase/locations.ts]) *)

(** [getAvailableLocations(requiredWeight)] as a function of the
    documents of the collection.  The query keeps the documents whose
    [available] and [verified] fields are both [true]; the rest is the
    code that follows the query.  [levelLocations[levelId] || []] is the
    group, or the empty list when there is none. *)
Definition getAvailableLocations
    (docs : list Location) (requiredWeight : number) : list Location :=
  (* Get all available and verified locations *)
  let locations :=
    List.filter (fun doc => available doc && verified doc) docs in
  (* Group locations by level *)
  let levelLocations := fold_left groupStep locations ∅ in
  (* Filter locations that can accept the weight based on level limits *)
  List.filter
    (fun location =>
       let levelId := getLevelId location in
       let currentLevelWeight :=
         Num (getLevelWeight (default [] (levelLocations !! levelId))) in
       let levelMaxWeight := toNumber (LEVEL_MAX_WEIGHTS !! level location) in
       num_le (num_add currentLevelWeight requiredWeight) levelMaxWeight)
    locations.

(** The document that [addLocation(location)] stores. *)
Definition locationWithDefaults (newLocation : Location) : Location :=
  let maxWeight := toNumber (LEVEL_MAX_WEIGHTS !! level newLocation) in
  {| id := id newLocation; code := code newLocation;
     row := row newLocation; bay := bay newLocation;
     level := level newLocation; location := location newLocation;
     maxWeight := maxWeight;
     currentWeight := Some (Z2num 0);
     available := true;
     verified := true |}.

(** Truthiness of an optional number: [undefined], [NaN] and [0] are
    falsy. *)
Definition truthy (v : option number) : bool :=
  match v with
  | Some (Num q) => negb (Qeq_bool q 0)
  | Some NaN => false
  | None => false
  end.

(** The [available] field that [updateLocation(id, data)] writes:
    [data.currentWeight ? data.currentWeight === 0 : true]. *)
Definition updateLocationAvailable (dataCurrentWeight : option number) : bool :=
  if truthy dataCurrentWeight
  then match dataCurrentWeight with
       | Some n => num_strict_eq n (Z2num 0)
       | None => false
       end
  else true.

(** [updateLocation(id, data)] on the stored document, for a [data]
    that carries at most a [currentWeight]: the fields of [data]
    replace the stored ones, and [available] is recomputed. *)
Definition updateLocation
    (stored : Location) (dataCurrentWeight : option number) : Location :=
  {| id := id stored; code := code stored;
     row := row stored; bay := bay stored; level := level stored;
     location := location stored;
     maxWeight := maxWeight stored;
     currentWeight :=
       match dataCurrentWeight with
       | Some n => Some n
       | None => currentWeight stored
       end;
     available := updateLocationAvailable dataCurrentWeight;
     verified := verified stored |}.

(** ** The scan of a location ([pages/picking.tsx]) *)

(** The type of a warehouse action, ['in'] or ['out']. *)
Inductive ActionType : Type :=
| ActionIn
| ActionOut.

(** [Math.max(a, b)]. *)
Definition num_max (a b : number) : number :=
  match a, b with
  | Num x, Num y => Num (if Qle_bool x y then y else x)
  | _, _ => NaN
  end.

(** The [currentWeight] that [handleScan] writes for the scanned
    location. *)
Definition scannedCurrentWeight
    (actionType : ActionType) (location : Location) (weight : number)
  : number :=
  match actionType with
  | ActionIn => num_add (Num (orZero (currentWeight location))) weight
  | ActionOut =>
      num_max (Z2num 0) (num_sub (Num (orZero (currentWeight location))) weight)
  end.

(** The location document after [handleScan] has updated it. *)
Definition handleScan
    (actionType : ActionType) (scanned : Location) (weight : number)
  : Location :=
  updateLocation scanned (Some (scannedCurrentWeight actionType scanned weight)).

(** ** The location statistics of the dashboard ([pages/dashboard.tsx]) *)

Module Dashboard.

Record Stats : Type := mkStats {
  total : Z;
  empty : Z;
  occupied : Z
}.

(** [location.currentWeight === 0]. *)
Definition isZero (v : option number) : bool :=
  match v with
  | Some n => num_strict_eq n (Z2num 0)
  | None => false
  end.

(** The callback of the [reduce] over the fetched locations. *)
Definition statsStep (acc : Stats) (location : Location) : Stats :=
  let acc1 := {| total := (total acc + 1)%Z;
                 empty := empty acc; occupied := occupied acc |} in
  if isZero (currentWeight location)
  then {| total := total acc1;
          empty := (empty acc1 + 1)%Z; occupied := occupied acc1 |}
  else {| total := total acc1;
          empty := empty acc1; occupied := (occupied acc1 + 1)%Z |}.

Definition stats (fetchedLocations : list Location) : Stats :=
  fold_left statsStep fetchedLocations
            {| total := 0%Z; empty := 0%Z; occupied := 0%Z |}.

(** [(stats.occupied / stats.total) * 100]; [0 / 0] is [NaN]. *)
Definition occupancyRate (s : Stats) : number :=
  num_mul (num_div (Z2num (occupied s)) (Z2num (total s))) (Z2num 100).

End Dashboard.

(** ** The repair of stored locations ([initializeLocationIndexes]) *)

(** [v || d] on an optional number. *)
Definition orElse (v : option number) (d : Q) : Q :=
  match v with
  | Some (Num q) => if Qeq_bool q 0 then d else q
  | Some NaN => d
  | None => d
  end.

(** [xs.includes(x)] on strings. *)
Definition includes (xs : list string) (x : string) : bool :=
  existsb (String.eqb x) xs.

(** The property names that every object inherits from
    [Object.prototype].  A read of [LEVEL_MAX_WEIGHTS] under one of
    them finds no property of the table itself and yields the inherited
    function or object, not [undefined]. *)
Definition objectPrototypeKeys : list string :=
  ["constructor"; "hasOwnProperty"; "isPrototypeOf"; "propertyIsEnumerable";
   "toLocaleString"; "toString"; "valueOf"; "__proto__";
   "__defineGetter__"; "__defineSetter__";
   "__lookupGetter__"; "__lookupSetter__"].

Module Repair.

(** A value of the [maxWeight] field: a number, or the function or
    object inherited under a property name. *)
Inductive Value : Type :=
| Number (n : number)
| Inherited (name : string).

(** A stored location document: the fields the repair reads may be
    missing. *)
Record LocationDoc : Type := mkLocationDoc {
  level : string;
  maxWeight : option Value;
  currentWeight : option number;
  available : option bool;
  verified : option bool
}.

(** Truthiness of the [maxWeight] field: a function or an object is
    truthy. *)
Definition truthyValue (v : option Value) : bool :=
  match v with
  | Some (Number n) => truthy (Some n)
  | Some (Inherited _) => true
  | None => false
  end.

(** [!location.maxWeight || location.available === undefined
     || location.verified === undefined]. *)
Definition needsUpdate (location : LocationDoc) : bool :=
  negb (truthyValue (maxWeight location))
  || match available location with None => true | Some _ => false end
  || match verified location with None => true | Some _ => false end.

(** [LEVEL_MAX_WEIGHTS[level] || 500]. *)
Definition levelMaxWeightOr500 (level : string) : Value :=
  match LEVEL_MAX_WEIGHTS !! level with
  | Some q => Number (Num (orElse (Some (Num q)) 500))
  | None =>
      if includes objectPrototypeKeys level then Inherited level
      else Number (Num 500)
  end.

(** The document after [batch.update]. *)
Definition updated (location : LocationDoc) : LocationDoc :=
  let maxWeight := levelMaxWeightOr500 (level location) in
  {| level := level location;
     maxWeight := Some maxWeight;
     currentWeight := Some (Num (orZero (currentWeight location)));
     available := Some true;
     verified := Some true |}.

(** One turn of the loop over the documents: the collection as the
    committed batch leaves it, and the count of updates. *)
Definition step (state : list LocationDoc * Z) (location : LocationDoc)
  : list LocationDoc * Z :=
  let '(stored, updates) := state in
  if needsUpdate location
  then (stored ++ [updated location], (updates + 1)%Z)
  else (stored ++ [location], updates).

Definition initializeLocationIndexes (docs : list LocationDoc)
  : list LocationDoc * Z :=
  fold_left step docs ([], 0%Z).

End Repair.

(** ** Whole numbers *)

(** A whole number is a quantity without a fractional part.  Sums and
    differences of whole numbers that stay within 2^53 are computed
    without rounding. *)
Definition wholeNumber (q : Q) : Prop := exists z : Z, q == inject_Z z.

(** ** Validation of items and actions ([items.ts], [actions.ts]) *)

(** The outcome of a function that may throw an [Error] with a
    message. *)
Inductive attempt (A : Type) : Type :=
| Done (a : A)
| Throw (message : string).
Arguments Done {A} a.
Arguments Throw {A} message.

(** [s.trim()]. *)
Fixpoint trimEnd (s : string) : string :=
  match s with
  | EmptyString => EmptyString
  | String c rest =>
      match trimEnd rest with
      | EmptyString => if isWhiteSpace c then EmptyString
                       else String c EmptyString
      | kept => String c kept
      end
  end.

Definition trim (s : string) : string := trimEnd (trimStart s).

(** [!s] for a string. *)
Definition isEmpty (s : string) : bool :=
  match s with EmptyString => true | String _ _ => false end.

(** [s?.trim() || null] for an optional string. *)
Definition trimOrNull (s : option string) : option string :=
  match s with
  | Some text => if isEmpty (trim text) then None else Some (trim text)
  | None => None
  end.

(** [isNaN(w) || w <= 0]. *)
Definition invalidWeight (w : number) : bool :=
  match w with
  | NaN => true
  | Num q => Qle_bool q 0
  end.

Definition validCategories : list string :=
  ["raw"; "finished"; "packaging"; "spare"].

Module Actions.

Record CreateActionData : Type := mkCreateActionData {
  itemId : string;
  itemCode : string;
  systemCode : string;
  description : string;
  category : string;
  weight : number;
  location : option string;
  actionType : string;
  status : string;
  operator : option string;
  department : option string
}.

Definition validActionTypes : list string := ["in"; "out"].
Definition validStatuses : list string := ["pending"; "in-progress"; "completed"].

(** [addAction(data)]: the document that is stored, or the error. *)
Definition addAction (data : CreateActionData) : attempt CreateActionData :=
  (* Validate required fields *)
  if isEmpty (itemId data) || isEmpty (itemCode data)
     || isEmpty (systemCode data) || isEmpty (description data)
     || isEmpty (category data)
  then Throw "Missing required fields"
  (* Ensure weight is a valid number *)
  else if invalidWeight (weight data) then Throw "Invalid weight value"
  (* Validate category *)
  else if negb (includes validCategories (category data))
  then Throw "Invalid category"
  (* Validate action type *)
  else if negb (includes validActionTypes (actionType data))
  then Throw "Invalid action type"
  (* Validate status *)
  else if negb (includes validStatuses (status data))
  then Throw "Invalid status"
  else
    Done {| itemId := itemId data;
            itemCode := trim (itemCode data);
            systemCode := trim (systemCode data);
            description := trim (description data);
            category := category data;
            weight := weight data;
            location := trimOrNull (location data);
            actionType := actionType data;
            status := status data;
            operator := trimOrNull (operator data);
            department := trimOrNull (department data) |}.

End Actions.

Module Items.

Record CreateItemData : Type := mkCreateItemData {
  itemCode : string;
  systemCode : string;
  description : string;
  weight : number;
  category : string;
  status : string;
  department : option string
}.

(** The stored item document (without its metadata and time stamp). *)
Record ItemData : Type := mkItemData {
  storedItemCode : string;
  storedSystemCode : string;
  storedDescription : string;
  storedWeight : number;
  storedCategory : string;
  storedStatus : string;
  locationVerified : bool;
  storedDepartment : option string
}.

Definition validStatuses : list string := ["pending"; "placed"; "removed"].

(** [addItem(data)]: the document that is stored, or the error. *)
Definition addItem (data : CreateItemData) : attempt ItemData :=
  (* Validate required fields *)
  if isEmpty (itemCode data) || isEmpty (systemCode data)
     || isEmpty (description data) || isEmpty (category data)
  then Throw "Missing required fields"
  (* Ensure weight is a valid number *)
  else if invalidWeight (weight data) then Throw "Invalid weight value"
  (* Validate category *)
  else if negb (includes validCategories (category data))
  then Throw "Invalid category"
  (* Validate status *)
  else if negb (includes validStatuses (status data))
  then Throw "Invalid status"
  else
    Done {| storedItemCode := trim (itemCode data);
            storedSystemCode := trim (systemCode data);
            storedDescription := trim (description data);
            storedWeight := weight data;
            storedCategory := category data;
            storedStatus := status data;
            locationVerified := false;
            storedDepartment := trimOrNull (department data) |}.

End Items.

(** The item of [types/warehouse.ts], as [createGoodsInAction] and
    [createPickAction] read it. *)
Module Warehouse.

Record Item : Type := mkItem {
  id : string;
  itemCode : string;
  systemCode : string;
  description : string;
  weight : number;
  location : option string;
  category : string;
  status : string;
  department : option string
}.

End Warehouse.

(** [{ ...itemData, id: itemId }], the item that the goods-in page
    hands to [createGoodsInAction]. *)
Definition withId (itemData : Items.CreateItemData) (itemId : string)
  : Warehouse.Item :=
  {| Warehouse.id := itemId;
     Warehouse.itemCode := Items.itemCode itemData;
     Warehouse.systemCode := Items.systemCode itemData;
     Warehouse.description := Items.description itemData;
     Warehouse.weight := Items.weight itemData;
     Warehouse.location := None;
     Warehouse.category := Items.category itemData;
     Warehouse.status := Items.status itemData;
     Warehouse.department := Items.department itemData |}.

(** [createGoodsInAction(item)]. *)
Definition createGoodsInAction (item : Warehouse.Item)
  : attempt Actions.CreateActionData :=
  if isEmpty (Warehouse.id item) || isEmpty (Warehouse.systemCode item)
     || isEmpty (Warehouse.itemCode item)
     || isEmpty (Warehouse.description item)
     || isEmpty (Warehouse.category item)
  then Throw "Invalid item data: missing required fields"
  else
    Actions.addAction
      {| Actions.itemId := Warehouse.id item;
         Actions.itemCode := Warehouse.itemCode item;
         Actions.systemCode := Warehouse.systemCode item;
         Actions.description := Warehouse.description item;
         Actions.category := Warehouse.category item;
         Actions.weight := Warehouse.weight item;
         Actions.location := None;
         Actions.actionType := "in";
         Actions.status := "pending";
         Actions.operator := None;
         Actions.department := Warehouse.department item |}.

(** [createPickAction(item, department)]. *)
Definition createPickAction
    (item : Warehouse.Item) (department : option string)
  : attempt Actions.CreateActionData :=
  if isEmpty (Warehouse.id item) || isEmpty (Warehouse.systemCode item)
     || isEmpty (Warehouse.itemCode item)
     || isEmpty (Warehouse.description item)
     || isEmpty (Warehouse.category item)
  then Throw "Invalid item data: missing required fields"
  else
    match trimOrNull department with
    | None => Throw "Department is required for pick actions"
    | Some trimmed =>
        Actions.addAction
          {| Actions.itemId := Warehouse.id item;
             Actions.itemCode := Warehouse.itemCode item;
             Actions.systemCode := Warehouse.systemCode item;
             Actions.description := Warehouse.description item;
             Actions.category := Warehouse.category item;
             Actions.weight := Warehouse.weight item;
             Actions.location := Warehouse.location item;
             Actions.actionType := "out";
             Actions.status := "pending";
             Actions.operator := None;
             Actions.department := Some trimmed |}
    end.

(** Every character of the string is white space. *)
Fixpoint allWhiteSpace (s : string) : bool :=
  match s with
  | EmptyString => true
  | String c rest => isWhiteSpace c && allWhiteSpace rest
  end.

(** Sample data: a coil with a blank item code, and the coil as entered
    on the goods-in page. *)
Definition blankCoil : Items.CreateItemData :=
  {| Items.itemCode := " "; Items.systemCode := "SYS-1";
     Items.description := "Steel coil"; Items.weight := Num 750;
     Items.category := "raw"; Items.status := "pending";
     Items.department := None |}.

Definition coil : Items.CreateItemData :=
  {| Items.itemCode := " C-100 "; Items.systemCode := "SYS-1";
     Items.description := "Steel coil"; Items.weight := Num 750;
     Items.category := "raw"; Items.status := "pending";
     Items.department := Some "  " |}.

(** Sample data: a slot whose row and bay are split one character
    later than those of [loadedSlot]. *)
Definition shiftedSlot : Location := slot "A0" "1" "0" 0 true true.

(** A decimal digit other than 0. *)
Definition isNonZeroDigit (c : ascii) : bool :=
  let n := nat_of_ascii c in ((49 <=? n) && (n <=? 57))%nat.

(** ** Facts about numbers *)

Lemma num_gt_Num (x y : Q) : num_gt (Num x) (Num y) = true <-> y < x.
Proof.
  simpl. rewrite negb_true_iff.
  destruct (Qle_bool x y) eqn:E.
  - apply Qle_bool_iff in E. split; [discriminate | intros H; lra].
  - split; [intros _ | reflexivity].
    apply Qnot_le_lt. intros H. apply Qle_bool_iff in H. congruence.
Qed.

Lemma num_gt_Num_false (x y : Q) : num_gt (Num x) (Num y) = false <-> x <= y.
Proof.
  simpl. rewrite negb_false_iff. apply Qle_bool_iff.
Qed.

Lemma num_gt_inv (a b : number) :
  num_gt a b = true -> exists x y, a = Num x /\ b = Num y /\ y < x.
Proof.
  destruct a as [x|], b as [y|]; try discriminate.
  intros H. exists x, y. repeat split. now apply num_gt_Num.
Qed.

Lemma num_le_Num (x y : Q) : num_le (Num x) (Num y) = true <-> x <= y.
Proof. simpl. apply Qle_bool_iff. Qed.

Lemma num_strict_eq_Num (x y : Q) :
  num_strict_eq (Num x) (Num y) = true <-> x == y.
Proof. simpl. apply Qeq_bool_iff. Qed.

Lemma num_same_refl (a : number) : num_same a a.
Proof. destruct a; simpl; [reflexivity | exact I]. Qed.

(** ** Callbacks that do not throw *)

Lemma js_filter_pure {A : Type} (f : A -> js bool) (g : A -> bool) (xs : list A) :
  (forall x, In x xs -> f x = Return (g x)) ->
  js_filter f xs = Return (List.filter g xs).
Proof.
  induction xs as [|x rest IH]; intros H; simpl; [reflexivity|].
  rewrite (H x (or_introl eq_refl)). simpl.
  rewrite IH by (intros y Hy; apply H; now right).
  simpl. now destruct (g x).
Qed.

Lemma js_map_pure {A B : Type} (f : A -> js B) (g : A -> B) (xs : list A) :
  (forall x, In x xs -> f x = Return (g x)) ->
  js_map f xs = Return (List.map g xs).
Proof.
  induction xs as [|x rest IH]; intros H; simpl; [reflexivity|].
  rewrite (H x (or_introl eq_refl)). simpl.
  rewrite IH by (intros y Hy; apply H; now right).
  reflexivity.
Qed.

(** ** The level groups *)

Lemma groupStep_lookup (groups : gmap string (list Location)) loc k :
  groupStep groups loc !! k =
    if String.eqb (getLevelId loc) k
    then Some (default [] (groups !! k) ++ [loc])
    else groups !! k.
Proof.
  unfold groupStep.
  destruct (String.eqb (getLevelId loc) k) eqn:E.
  - apply String.eqb_eq in E. subst k.
    rewrite lookup_alter_eq.
    destruct (groups !! getLevelId loc) as [g|] eqn:G.
    + now rewrite G.
    + now rewrite lookup_insert_eq.
  - apply String.eqb_neq in E.
    rewrite lookup_alter_ne by exact E.
    destruct (groups !! getLevelId loc); [reflexivity|].
    now rewrite lookup_insert_ne.
Qed.

Lemma fold_groupStep_lookup (ls : list Location) :
  forall (groups : gmap string (list Location)) k,
    fold_left groupStep ls groups !! k =
      match groups !! k, List.filter (fun loc => String.eqb (getLevelId loc) k) ls with
      | Some g, same => Some (g ++ same)
      | None, [] => None
      | None, same => Some same
      end.
Proof.
  induction ls as [|loc rest IH]; intros groups k; simpl.
  - destruct (groups !! k); [now rewrite app_nil_r | reflexivity].
  - rewrite IH, groupStep_lookup.
    destruct (String.eqb (getLevelId loc) k).
    + destruct (groups !! k) as [g|]; simpl; [now rewrite <- app_assoc | reflexivity].
    + reflexivity.
Qed.

Lemma levelGroups_lookup locations location :
  In location (availableLocations locations) ->
  groupOf (levelGroups locations) (getLevelId location)
  = Return (levelOf locations location).
Proof.
  intros Hin. unfold groupOf, levelGroups, levelOf.
  rewrite fold_groupStep_lookup, lookup_empty.
  destruct (List.filter _ _) as [|g gs] eqn:E; [|reflexivity].
  exfalso.
  assert (H : In location
                (List.filter (fun loc => String.eqb (getLevelId loc) (getLevelId location))
                             (availableLocations locations))).
  { apply filter_In. split; [exact Hin | apply String.eqb_refl]. }
  rewrite E in H. exact H.
Qed.

(** ** The head of the sorted list *)

Lemma insert_length {A : Type} (cmp : A -> A -> number) x (s : list A) :
  length (insert cmp x s) = S (length s).
Proof.
  induction s as [|y rest IH]; simpl; [reflexivity|].
  destruct (num_gt (cmp x y) (Z2num 0)); simpl; [now rewrite IH | reflexivity].
Qed.

Lemma sort_length {A : Type} (cmp : A -> A -> number) (xs : list A) :
  length (sort cmp xs) = length xs.
Proof.
  induction xs as [|x rest IH]; simpl; [reflexivity|].
  now rewrite insert_length, IH.
Qed.

Lemma insert_Permutation {A : Type} (cmp : A -> A -> number) x (s : list A) :
  Permutation (x :: s) (insert cmp x s).
Proof.
  induction s as [|y rest IH]; simpl; [reflexivity|].
  destruct (num_gt (cmp x y) (Z2num 0)); [|reflexivity].
  rewrite <- IH. apply perm_swap.
Qed.

Lemma sort_Permutation {A : Type} (cmp : A -> A -> number) (xs : list A) :
  Permutation xs (sort cmp xs).
Proof.
  induction xs as [|x rest IH]; simpl; [reflexivity|].
  rewrite <- insert_Permutation. now constructor.
Qed.

Lemma head_insert {A : Type} (cmp : A -> A -> number) x (s : list A) :
  head (insert cmp x s) = better cmp x (head s).
Proof.
  destruct s as [|y rest]; simpl; [reflexivity|].
  now destruct (num_gt (cmp x y) (Z2num 0)).
Qed.

Lemma head_sort {A : Type} (cmp : A -> A -> number) (xs : list A) :
  head (sort cmp xs) = first_best cmp xs.
Proof.
  induction xs as [|x rest IH]; simpl; [reflexivity|].
  now rewrite head_insert, IH.
Qed.

Lemma first_best_nonempty {A : Type} (cmp : A -> A -> number) (xs : list A) :
  xs <> [] -> exists b, first_best cmp xs = Some b.
Proof.
  destruct xs as [|x rest]; [congruence | intros _; simpl].
  destruct (first_best cmp rest) as [h|]; simpl; [|eauto].
  destruct (num_gt (cmp x h) (Z2num 0)); eauto.
Qed.

(** The chosen element splits the list: every element before it
    compares greater than it. *)
Lemma first_best_split {A : Type} (cmp : A -> A -> number) (xs : list A) b :
  first_best cmp xs = Some b ->
  exists pre post,
    xs = pre ++ b :: post
    /\ (forall c, In c pre -> num_gt (cmp c b) (Z2num 0) = true)
    /\ first_best cmp (b :: post) = Some b.
Proof.
  revert b. induction xs as [|x rest IH]; intros b; simpl; [discriminate|].
  destruct (first_best cmp rest) as [h|] eqn:E; simpl.
  - destruct (num_gt (cmp x h) (Z2num 0)) eqn:G; intros [= <-].
    + destruct (IH h eq_refl) as (pre & post & -> & Hpre & Hb).
      exists (x :: pre), post. repeat split; [|exact Hb].
      intros c [<-|Hc]; [exact G | now apply Hpre].
    + exists [], rest. repeat split; [intros c []|].
      simpl. rewrite E. simpl. now rewrite G.
  - intros [= <-]. exists [], rest. repeat split; [intros c []|].
    simpl. now rewrite E.
Qed.

(** ** What [findOptimalLocation] computes *)

Lemma acceptsInLevel_eq locations weight location :
  In location (availableLocations locations) ->
  acceptsInLevel (levelGroups locations) weight location
  = Return (eligible locations weight location).
Proof.
  intros Hin. unfold acceptsInLevel.
  now rewrite (levelGroups_lookup _ _ Hin).
Qed.

Lemma scoreLocation_eq locations weight location :
  In location (availableLocations locations) ->
  scoreLocation (levelGroups locations) weight location
  = Return (scoredOf locations weight location).
Proof.
  intros Hin. unfold scoreLocation.
  now rewrite (levelGroups_lookup _ _ Hin).
Qed.

Lemma validLocations_eq locations weight :
  validLocations locations weight = Return (candidates locations weight).
Proof.
  unfold validLocations, candidates.
  apply js_filter_pure. intros x Hx. now apply acceptsInLevel_eq.
Qed.

Lemma candidates_available locations weight c :
  In c (candidates locations weight) -> In c (availableLocations locations).
Proof. unfold candidates. intros H. now apply filter_In in H. Qed.

Lemma scoredAll_eq locations weight :
  js_map (scoreLocation (levelGroups locations) weight)
         (candidates locations weight)
  = Return (List.map (scoredOf locations weight) (candidates locations weight)).
Proof.
  apply js_map_pure. intros x Hx.
  apply scoreLocation_eq. now apply candidates_available in Hx.
Qed.

Lemma length_zero_nil {A : Type} (xs : list A) :
  (length xs =? 0)%nat = true -> xs = [].
Proof. destruct xs; [reflexivity | discriminate]. Qed.

Lemma findOptimalLocation_eq locations weight :
  findOptimalLocation locations weight
  = Return (option_map scoredLocation (first_best byScore (ranked locations weight))).
Proof.
  unfold findOptimalLocation.
  rewrite validLocations_eq. simpl js_bind.
  rewrite scoredAll_eq. simpl js_bind.
  fold (ranked locations weight).
  destruct (length (availableLocations locations) =? 0)%nat eqn:E1.
  { apply length_zero_nil in E1. unfold ranked, candidates. now rewrite E1. }
  destruct (length (candidates locations weight) =? 0)%nat eqn:E2.
  { apply length_zero_nil in E2. unfold ranked. now rewrite E2. }
  destruct (length (ranked locations weight) =? 0)%nat eqn:E3.
  { apply length_zero_nil in E3. now rewrite E3. }
  rewrite <- head_sort.
  destruct (sort byScore (ranked locations weight)) as [|b rest] eqn:S; [|reflexivity].
  exfalso. apply (f_equal (@length _)) in S. rewrite sort_length in S.
  simpl in S. rewrite S in E3. discriminate.
Qed.

(** ** Membership in the ranked candidates *)

Lemma eligible_eq locations weight c :
  eligible locations weight c
  = available c && verified c && negb (breachesCap locations weight c).
Proof.
  unfold eligible, canAcceptWeight, breachesCap, newLevelWeightOf.
  now destruct (available c), (verified c).
Qed.

Lemma candidates_In locations weight c :
  In c (candidates locations weight) <->
  In c locations /\ available c = true /\ verified c = true
  /\ eligible locations weight c = true.
Proof.
  unfold candidates, availableLocations.
  rewrite !filter_In, andb_true_iff. tauto.
Qed.

Lemma ranked_In locations weight s :
  In s (ranked locations weight) <->
  (exists c, s = scoredOf locations weight c
             /\ In c (candidates locations weight))
  /\ notSentinel s = true.
Proof.
  unfold ranked. rewrite filter_In, in_map_iff.
  split; intros [(c & H1 & H2) H3]; (split; [|exact H3]); exists c; auto.
Qed.

Lemma first_best_In {A : Type} (cmp : A -> A -> number) (xs : list A) b :
  first_best cmp xs = Some b -> In b xs.
Proof.
  intros H. destruct (first_best_split _ _ _ H) as (pre & post & -> & _).
  apply in_elt.
Qed.

Lemma first_best_None {A : Type} (cmp : A -> A -> number) (xs : list A) :
  first_best cmp xs = None <-> xs = [].
Proof.
  split; [|now intros ->].
  destruct xs as [|x rest]; [reflexivity|]. intros H.
  destruct (first_best_nonempty cmp (x :: rest)) as [b Hb]; congruence.
Qed.

Lemma findOptimalLocation_Some locations weight r :
  findOptimalLocation locations weight = Return (Some r) <->
  first_best byScore (ranked locations weight)
  = Some (scoredOf locations weight r).
Proof.
  rewrite findOptimalLocation_eq. split.
  - destruct (first_best byScore (ranked locations weight)) as [s|] eqn:E;
      simpl; [|discriminate].
    intros [= <-]. f_equal.
    apply first_best_In, ranked_In in E. destruct E as [(c & -> & _) _].
    reflexivity.
  - now intros ->.
Qed.

Lemma findOptimalLocation_None locations weight :
  findOptimalLocation locations weight = Return None <->
  ranked locations weight = [].
Proof.
  rewrite findOptimalLocation_eq, <- (first_best_None byScore).
  destruct (first_best byScore (ranked locations weight)); simpl;
    split; congruence.
Qed.

(** The returned location is a ranked candidate. *)
Lemma findOptimalLocation_ranked locations weight r :
  findOptimalLocation locations weight = Return (Some r) ->
  In r (candidates locations weight)
  /\ notSentinel (scoredOf locations weight r) = true.
Proof.
  intros H. apply findOptimalLocation_Some, first_best_In, ranked_In in H.
  destruct H as [(c & E & Hc) Hs]. split; [|exact Hs].
  apply (f_equal scoredLocation) in E. simpl in E. now subst c.
Qed.

Lemma filter_none {A : Type} (p : A -> bool) (xs : list A) :
  (forall x, In x xs -> p x = false) -> List.filter p xs = [].
Proof.
  induction xs as [|x rest IH]; intros H; simpl; [reflexivity|].
  rewrite (H x (or_introl eq_refl)). apply IH. intros y Hy. apply H. now right.
Qed.


(** ** The flags of the returned location *)

(** C5.  [findOptimalLocation] never returns a location whose
    [available] field or [verified] field is false: whatever it returns
    is one of the input locations and has both fields true, whichever
    scores the other input locations would have. *)
Theorem returned_location_available_verified locations weight r :
  findOptimalLocation locations weight = Return (Some r) ->
  In r locations /\ available r = true /\ verified r = true.
Proof.
  intros H. apply findOptimalLocation_ranked in H. destruct H as [H _].
  apply candidates_In in H. tauto.
Qed.

(** The unavailable [reservedSlot] is nearer to the origin than
    [secondBaySlot]; the call returns [secondBaySlot]. *)
Lemma returned_location_available_verified_witness :
  In secondBaySlot [reservedSlot; secondBaySlot]
  /\ available secondBaySlot = true /\ verified secondBaySlot = true.
Proof.
  apply (returned_location_available_verified
           [reservedSlot; secondBaySlot] (Z2num 500)).
  vm_compute. reflexivity.
Defined.

(** ** The level cap *)



(** ** No location *)

(** C6.  For the empty list, and for every list in which each available
    and verified location would push its level above the level's
    maximum, [findOptimalLocation] returns [null]; and no call of
    [findOptimalLocation] throws. *)
Theorem no_location_is_never_an_error :
  (forall weight, findOptimalLocation [] weight = Return None)
  /\ (forall locations weight,
         (forall c, In c locations ->
                    available c = true -> verified c = true ->
                    breachesCap locations weight c = true) ->
         findOptimalLocation locations weight = Return None)
  /\ (forall locations weight,
         findOptimalLocation locations weight <> TypeError).
Proof.
  split; [|split].
  - reflexivity.
  - intros locations weight H. apply findOptimalLocation_None.
    assert (E : candidates locations weight = []); [|unfold ranked; now rewrite E].
    apply filter_none.
    intros c Hc. unfold availableLocations in Hc.
    apply filter_In in Hc. destruct Hc as [Hin Hav].
    apply andb_true_iff in Hav. destruct Hav as [Ha Hv].
    rewrite eligible_eq, Ha, Hv, (H c Hin Ha Hv). reflexivity.
  - intros locations weight. rewrite findOptimalLocation_eq. discriminate.
Qed.

(** Scenario 2 of the specification: 1800 kg on the level, 300 kg to
    place. *)
Lemma no_location_is_never_an_error_witness :
  findOptimalLocation [loadedSlot] (Z2num 300) = Return None.
Proof.
  apply (proj1 (proj2 no_location_is_never_an_error)).
  intros c [<-|[]] _ _. vm_compute. reflexivity.
Defined.

(** ** The order of the ranked candidates *)



Lemma first_best_byScore_min (xs : list Scored) :
  (forall s, In s xs -> is_num (score s)) ->
  forall b, first_best byScore xs = Some b ->
  forall s, In s xs -> num_le (score b) (score s) = true.
Proof.
  induction xs as [|x rest IH]; intros Hnum b Hb s Hs; [destruct Hs|].
  assert (Hrest : forall s, In s rest -> is_num (score s))
    by (intros; apply Hnum; now right).
  specialize (IH Hrest). simpl in Hb.
  pose proof (Hnum x (or_introl eq_refl)) as Hx.
  destruct (first_best byScore rest) as [h|] eqn:E; simpl in Hb.
  - specialize (IH h eq_refl).
    pose proof (Hrest h (first_best_In _ _ _ E)) as Hh.
    unfold byScore in Hb.
    destruct (score x) as [qx|] eqn:Ex; [|destruct Hx].
    destruct (score h) as [qh|] eqn:Eh; [|destruct Hh].
    simpl in Hb.
    destruct (Qle_bool (qx - qh) (inject_Z 0)) eqn:G; simpl in Hb;
      injection Hb as <-.
    + apply Qle_bool_iff in G. unfold inject_Z in G. rewrite Ex.
      destruct Hs as [<-|Hs].
      * rewrite Ex. apply num_le_Num. lra.
      * specialize (IH s Hs). destruct (score s) as [qs|]; [|discriminate].
        apply num_le_Num. apply num_le_Num in IH. lra.
    + assert (G' : ~ qx - qh <= inject_Z 0)
        by (intros G'; apply Qle_bool_iff in G'; congruence).
      unfold inject_Z in G'. rewrite Eh.
      destruct Hs as [<-|Hs].
      * rewrite Ex. apply num_le_Num. lra.
      * exact (IH s Hs).
  - apply first_best_None in E. subst rest. injection Hb as <-.
    destruct Hs as [<-|[]].
    destruct (score x); [|destruct Hx]. apply num_le_Num. lra.
Qed.



(** ** The score of the returned location *)

(** C3, as stated, fails: with 2000 kg to place, the score of
    [sentinelSlot] is exactly [Number.MAX_SAFE_INTEGER], so the slot is
    dropped after scoring although it is available, verified and within
    its level's maximum, and [beyondSlot], whose score is greater, is
    returned. *)
Lemma returned_score_not_minimal :
  findOptimalLocation [sentinelSlot; beyondSlot] (Z2num 2000)
  = Return (Some beyondSlot)
  /\ available sentinelSlot = true /\ verified sentinelSlot = true
  /\ breachesCap [sentinelSlot; beyondSlot] (Z2num 2000) sentinelSlot = false
  /\ num_lt (scoreOf [sentinelSlot; beyondSlot] (Z2num 2000) sentinelSlot)
            (scoreOf [sentinelSlot; beyondSlot] (Z2num 2000) beyondSlot)
     = true.
Proof. vm_compute. repeat split; reflexivity. Qed.

(** C3, amended.  When the scores of the eligible candidates are
    numbers, the location that [findOptimalLocation] returns has a score
    that is at most the score of every available and verified location
    whose level would not exceed its maximum and whose score is not
    [Number.MAX_SAFE_INTEGER]. *)
Theorem returned_score_minimal_among_ranked locations weight r :
  findOptimalLocation locations weight = Return (Some r) ->
  (forall c, In c (candidates locations weight) ->
             is_num (scoreOf locations weight c)) ->
  forall c, In c locations ->
    available c = true -> verified c = true ->
    breachesCap locations weight c = false ->
    num_strict_neq (scoreOf locations weight c) MAX_SAFE_INTEGER = true ->
    num_le (scoreOf locations weight r) (scoreOf locations weight c) = true.
Proof.
  intros H Hnum c Hc Ha Hv Hb Hs.
  apply findOptimalLocation_Some in H.
  assert (Hin : In (scoredOf locations weight c) (ranked locations weight)).
  { apply ranked_In. split; [|exact Hs]. exists c. split; [reflexivity|].
    apply candidates_In. repeat split; try assumption.
    now rewrite eligible_eq, Ha, Hv, Hb. }
  apply (first_best_byScore_min (ranked locations weight)) with (s := scoredOf locations weight c) in H;
    [exact H | | exact Hin].
  intros s Hs'. apply ranked_In in Hs'. destruct Hs' as [(c' & -> & Hc') _].
  now apply Hnum.
Qed.

(** Scenario 1 of the specification: 500 kg, two empty ground slots in
    bays 1 and 2. *)
Lemma returned_score_minimal_among_ranked_witness :
  num_le (scoreOf [groundSlot; secondBaySlot] (Z2num 500) groundSlot)
         (scoreOf [groundSlot; secondBaySlot] (Z2num 500) secondBaySlot)
  = true.
Proof.
  apply (returned_score_minimal_among_ranked
           [groundSlot; secondBaySlot] (Z2num 500) groundSlot).
  - vm_compute. reflexivity.
  - intros c Hc.
    assert (E : candidates [groundSlot; secondBaySlot] (Z2num 500)
                = [groundSlot; secondBaySlot]) by (vm_compute; reflexivity).
    rewrite E in Hc. destruct Hc as [<-|[<-|[]]]; vm_compute; exact I.
  - right. left. reflexivity.
  - reflexivity.
  - reflexivity.
  - vm_compute. reflexivity.
  - vm_compute. reflexivity.
Defined.

(** ** The score formula *)



(** Below the cap the scorer is the sum of its three penalties. *)
Lemma calculateWeightScore_total weight level levelLocations :
  num_gt (num_add (Num (getLevelWeight levelLocations)) weight)
         (toNumber (LEVEL_MAX_WEIGHTS !! level)) = false ->
  calculateWeightScore weight level levelLocations
  = calculateWeightScoreTotal weight level levelLocations.
Proof.
  intros H. unfold calculateWeightScore, calculateWeightScoreTotal. now rewrite H.
Qed.

Lemma eligible_within locations weight c :
  eligible locations weight c = true ->
  available c = true /\ verified c = true
  /\ breachesCap locations weight c = false.
Proof.
  rewrite eligible_eq, !andb_true_iff, negb_true_iff. tauto.
Qed.



(** ** A tier without a configured maximum *)

Lemma num_gt_NaN_r a : num_gt a NaN = false.
Proof. now destruct a. Qed.

Lemma num_add_NaN_r a : num_add a NaN = NaN.
Proof. now destruct a. Qed.

Lemma canAcceptWeight_unconfigured location weight levelLocations :
  LEVEL_MAX_WEIGHTS !! level location = None ->
  available location = true -> verified location = true ->
  canAcceptWeight location weight levelLocations = true.
Proof.
  intros Hm Ha Hv. unfold canAcceptWeight. rewrite Ha, Hv, Hm. simpl.
  now rewrite num_gt_NaN_r.
Qed.

Lemma calculateWeightScore_unconfigured weight level levelLocations :
  LEVEL_MAX_WEIGHTS !! level = None ->
  calculateWeightScore weight level levelLocations = NaN.
Proof.
  intros Hm. unfold calculateWeightScore. rewrite Hm. simpl.
  rewrite num_gt_NaN_r.
  destruct (num_add (Num (getLevelWeight levelLocations)) weight); simpl;
    now rewrite num_add_NaN_r.
Qed.

Lemma scoreOf_unconfigured locations weight c :
  LEVEL_MAX_WEIGHTS !! level c = None -> scoreOf locations weight c = NaN.
Proof.
  intros Hm. unfold scoreOf.
  now rewrite (calculateWeightScore_unconfigured _ _ _ Hm), num_add_NaN_r.
Qed.

(** C2.  The code diverges from the specification here.  The tier "5"
    has no entry in [LEVEL_MAX_WEIGHTS]; the specification requires such
    a candidate to fail eligibility and the condition to be signalled as
    a fault, yet [canAcceptWeight] accepts the slot (the comparison of
    the new level weight with [undefined] is false, so the limit check
    is skipped) and [findOptimalLocation] returns it, without any
    fault. *)
Lemma unconfigured_tier_is_returned :
  LEVEL_MAX_WEIGHTS !! level unknownTierSlot = None
  /\ canAcceptWeight unknownTierSlot (Z2num 100) [unknownTierSlot] = true
  /\ findOptimalLocation [unknownTierSlot] (Z2num 100)
     = Return (Some unknownTierSlot).
Proof. vm_compute. repeat split; reflexivity. Qed.

(** The extent of that divergence: an available and verified location
    whose tier has no entry in [LEVEL_MAX_WEIGHTS] passes
    [canAcceptWeight] for every weight and every level, is among the
    valid locations of every call that offers it, and is returned when
    it is the only location offered; no call raises a fault. *)
Lemma unconfigured_tier_passes_eligibility locations location weight :
  LEVEL_MAX_WEIGHTS !! level location = None ->
  In location locations ->
  available location = true -> verified location = true ->
  (forall levelLocations,
      canAcceptWeight location weight levelLocations = true)
  /\ (exists valid, validLocations locations weight = Return valid
                    /\ In location valid)
  /\ findOptimalLocation [location] weight = Return (Some location)
  /\ findOptimalLocation locations weight <> TypeError.
Proof.
  intros Hm Hin Ha Hv.
  assert (Hacc : forall levelLocations,
             canAcceptWeight location weight levelLocations = true)
    by (intros; now apply canAcceptWeight_unconfigured).
  split; [exact Hacc|]. split; [|split].
  - exists (candidates locations weight). split; [apply validLocations_eq|].
    apply candidates_In. repeat split; try assumption. apply Hacc.
  - apply findOptimalLocation_Some.
    unfold ranked, candidates, availableLocations. simpl.
    rewrite Ha, Hv. simpl. unfold eligible at 1. rewrite Hacc. simpl.
    unfold notSentinel. simpl.
    now rewrite (scoreOf_unconfigured _ _ _ Hm).
  - rewrite findOptimalLocation_eq. discriminate.
Qed.

(** ** The sentinel and the simplified engine *)

Lemma filter_all {A : Type} (p : A -> bool) (xs : list A) :
  (forall x, In x xs -> p x = true) -> List.filter p xs = xs.
Proof.
  induction xs as [|x rest IH]; intros H; simpl; [reflexivity|].
  rewrite (H x (or_introl eq_refl)). f_equal. apply IH.
  intros y Hy. apply H. now right.
Qed.

Lemma candidates_total locations weight c :
  In c (candidates locations weight) ->
  calculateWeightScore weight (level c) (levelOf locations c)
  = calculateWeightScoreTotal weight (level c) (levelOf locations c).
Proof.
  intros Hc. apply candidates_In in Hc. destruct Hc as (_ & _ & _ & He).
  apply calculateWeightScore_total.
  now destruct (eligible_within _ _ _ He) as (_ & _ & Hb).
Qed.

Lemma scoreLocationSimplified_eq locations weight c :
  In c (candidates locations weight) ->
  scoreLocationSimplified (levelGroups locations) weight c
  = Return (scoredOf locations weight c).
Proof.
  intros Hc. unfold scoreLocationSimplified.
  rewrite (levelGroups_lookup _ _ (candidates_available _ _ _ Hc)). simpl.
  unfold scoredOf, scoreOf. now rewrite (candidates_total _ _ _ Hc).
Qed.

Lemma findOptimalLocationSimplified_eq locations weight :
  findOptimalLocationSimplified locations weight
  = Return (option_map scoredLocation
              (first_best byScore
                 (List.map (scoredOf locations weight)
                           (candidates locations weight)))).
Proof.
  unfold findOptimalLocationSimplified.
  rewrite validLocations_eq. simpl js_bind.
  rewrite (js_map_pure _ (scoredOf locations weight))
    by (intros x Hx; now apply scoreLocationSimplified_eq).
  simpl js_bind.
  destruct (length (availableLocations locations) =? 0)%nat eqn:E1.
  { apply length_zero_nil in E1. unfold candidates. now rewrite E1. }
  destruct (length (candidates locations weight) =? 0)%nat eqn:E2.
  { apply length_zero_nil in E2. now rewrite E2. }
  rewrite <- head_sort.
  destruct (sort byScore _) as [|b rest] eqn:S; [|reflexivity].
  exfalso. apply (f_equal (@length _)) in S.
  rewrite sort_length, length_map in S.
  simpl in S. rewrite S in E2. discriminate.
Qed.

(** C9, as stated, fails: with 2000 kg to place, [sentinelSlot] passes
    the eligibility filter and its score is exactly
    [Number.MAX_SAFE_INTEGER]; the filter after scoring drops it, so
    [findOptimalLocation] returns [null] where the simplified engine
    returns the slot. *)
Lemma sentinel_filter_drops_an_eligible_candidate :
  eligible [sentinelSlot] (Z2num 2000) sentinelSlot = true
  /\ findOptimalLocation [sentinelSlot] (Z2num 2000) = Return None
  /\ findOptimalLocationSimplified [sentinelSlot] (Z2num 2000)
     = Return (Some sentinelSlot).
Proof. vm_compute. repeat split; reflexivity. Qed.

(** C9, amended.  For every candidate that passes the eligibility
    filter the scorer does not take its over-capacity branch: it returns
    the sum of the three penalties.  The simplified engine, which has
    neither that branch nor the filter after scoring, returns the same
    result as [findOptimalLocation] on every input in which no eligible
    candidate has a score equal to [Number.MAX_SAFE_INTEGER]. *)
Theorem simplified_engine_agrees_without_sentinel_scores locations weight :
  (forall c, In c (candidates locations weight) ->
             calculateWeightScore weight (level c) (levelOf locations c)
             = calculateWeightScoreTotal weight (level c) (levelOf locations c))
  /\ ((forall c, In c (candidates locations weight) ->
                 num_strict_neq (scoreOf locations weight c) MAX_SAFE_INTEGER
                 = true) ->
      findOptimalLocationSimplified locations weight
      = findOptimalLocation locations weight).
Proof.
  split; [intros c; apply candidates_total|].
  intros H.
  rewrite findOptimalLocationSimplified_eq, findOptimalLocation_eq.
  unfold ranked. rewrite filter_all; [reflexivity|].
  intros s Hs. apply in_map_iff in Hs. destruct Hs as (c & <- & Hc).
  exact (H c Hc).
Qed.

(** Scenario 3 of the specification: both engines agree on it. *)
Lemma simplified_engine_agrees_without_sentinel_scores_witness :
  findOptimalLocationSimplified [groundSlot; firstSlot] (Z2num 100)
  = findOptimalLocation [groundSlot; firstSlot] (Z2num 100).
Proof.
  apply (proj2 (simplified_engine_agrees_without_sentinel_scores
                  [groundSlot; firstSlot] (Z2num 100))).
  intros c Hc.
  assert (E : candidates [groundSlot; firstSlot] (Z2num 100)
              = [groundSlot; firstSlot]) by (vm_compute; reflexivity).
  rewrite E in Hc. destruct Hc as [<-|[<-|[]]]; vm_compute; reflexivity.
Defined.

(** ** The aggregate weight of a level *)

Lemma fold_weight_acc (ls : list Location) :
  forall a,
    fold_left (fun total loc => total + orZero (currentWeight loc)) ls a
    == a + fold_left (fun total loc => total + orZero (currentWeight loc)) ls 0.
Proof.
  induction ls as [|l rest IH]; intros a; simpl; [lra|].
  rewrite (IH (a + _)), (IH (0 + _)). lra.
Qed.

Lemma getLevelWeight_cons l ls :
  getLevelWeight (l :: ls) == orZero (currentWeight l) + getLevelWeight ls.
Proof.
  unfold getLevelWeight. simpl. rewrite fold_weight_acc. lra.
Qed.

Lemma getLevelWeight_app xs ys :
  getLevelWeight (xs ++ ys) == getLevelWeight xs + getLevelWeight ys.
Proof.
  unfold getLevelWeight. rewrite fold_left_app. apply fold_weight_acc.
Qed.





(** ** Two empty tiers of one bay *)

Lemma append_inj_l (s t u : string) : (s ++ t = s ++ u)%string -> t = u.
Proof. induction s as [|c s IH]; simpl; [easy|]. intros [= H]. auto. Qed.

Lemma getLevelId_level l0 l1 :
  row l0 = row l1 -> bay l0 = bay l1 ->
  getLevelId l0 = getLevelId l1 -> level l0 = level l1.
Proof.
  unfold getLevelId. intros -> -> H.
  now do 3 apply append_inj_l in H.
Qed.

Lemma LEVEL_MAX_WEIGHTS_0 : LEVEL_MAX_WEIGHTS !! "0" = Some 2000.
Proof. vm_compute. reflexivity. Qed.

Lemma LEVEL_MAX_WEIGHTS_1 : LEVEL_MAX_WEIGHTS !! "1" = Some 1500.
Proof. vm_compute. reflexivity. Qed.

Lemma charCodeAt0_integer s : charCodeAt0 s = NaN \/ exists z, charCodeAt0 s = Z2num z.
Proof. destruct s; simpl; eauto. Qed.

Lemma parseInt_integer s : parseInt s = NaN \/ exists z, parseInt s = Z2num z.
Proof.
  unfold parseInt.
  repeat match goal with
         | |- context [let '(_, _) := ?p in _] => destruct p
         end.
  destruct (parseDigits _ _ _); eauto.
Qed.

Lemma calculateDistanceScore_integer row bay d :
  calculateDistanceScore row bay = Num d -> exists z, d == inject_Z z.
Proof.
  unfold calculateDistanceScore.
  change (charCodeAt0 "A") with (Z2num 65).
  destruct (charCodeAt0_integer row) as [->|[a ->]]; [discriminate|].
  destruct (parseInt_integer bay) as [->|[b ->]]; [discriminate|].
  simpl. intros [= <-]. exists ((a - 65) * 100 + (b - 1))%Z.
  unfold Qeq, inject_Z, Qplus, Qminus, Qmult, Qopp. simpl. lia.
Qed.

Lemma empty_ground_level locations l d :
  level l = "0" -> levelOf locations l = [l] ->
  available l = true -> verified l = true ->
  orZero (currentWeight l) == 0 ->
  calculateDistanceScore (row l) (bay l) = Num d ->
  eligible locations (Z2num 100) l = true
  /\ exists s, scoreOf locations (Z2num 100) l = Num s /\ s == d + 1950.
Proof.
  intros Hl Hlev Ha Hv Hc Hd.
  assert (Hcap : num_gt (num_add (Num (getLevelWeight [l])) (Z2num 100))
                        (Num 2000) = false).
  { apply num_gt_Num_false. rewrite getLevelWeight_cons, Hc.
    unfold getLevelWeight, inject_Z. simpl. lra. }
  split.
  - unfold eligible, canAcceptWeight.
    rewrite Ha, Hv, Hlev, Hl, LEVEL_MAX_WEIGHTS_0. simpl negb. simpl orb. cbv iota.
    unfold toNumber. now rewrite Hcap.
  - unfold scoreOf, calculateWeightScore.
    rewrite Hd, Hlev, Hl, LEVEL_MAX_WEIGHTS_0.
    change (parseInt "0") with (Z2num 0). unfold toNumber. rewrite Hcap.
    unfold num_add, num_mul, num_abs, num_sub, num_div, Z2num.
    change (Qeq_bool 2000 0) with false. cbv iota.
    eexists. split; [reflexivity|].
    assert (Hg : getLevelWeight [l] == 0).
    { rewrite getLevelWeight_cons, Hc. unfold getLevelWeight. simpl. lra. }
    rewrite Hg. unfold inject_Z. rewrite Qabs_pos by lra. field.
Qed.

Lemma empty_first_level locations l d :
  level l = "1" -> levelOf locations l = [l] ->
  available l = true -> verified l = true ->
  orZero (currentWeight l) == 0 ->
  calculateDistanceScore (row l) (bay l) = Num d ->
  eligible locations (Z2num 100) l = true
  /\ exists s, scoreOf locations (Z2num 100) l = Num s /\ s == d + (5000 # 3).
Proof.
  intros Hl Hlev Ha Hv Hc Hd.
  assert (Hcap : num_gt (num_add (Num (getLevelWeight [l])) (Z2num 100))
                        (Num 1500) = false).
  { apply num_gt_Num_false. rewrite getLevelWeight_cons, Hc.
    unfold getLevelWeight, inject_Z. simpl. lra. }
  split.
  - unfold eligible, canAcceptWeight.
    rewrite Ha, Hv, Hlev, Hl, LEVEL_MAX_WEIGHTS_1. simpl negb. simpl orb. cbv iota.
    unfold toNumber. now rewrite Hcap.
  - unfold scoreOf, calculateWeightScore.
    rewrite Hd, Hlev, Hl, LEVEL_MAX_WEIGHTS_1.
    change (parseInt "1") with (Z2num 1). unfold toNumber. rewrite Hcap.
    unfold num_add, num_mul, num_abs, num_sub, num_div, Z2num.
    change (Qeq_bool 1500 0) with false. cbv iota.
    eexists. split; [reflexivity|].
    assert (Hg : getLevelWeight [l] == 0).
    { rewrite getLevelWeight_cons, Hc. unfold getLevelWeight. simpl. lra. }
    rewrite Hg. unfold inject_Z. rewrite Qabs_pos by lra. field.
Qed.

Lemma levelOf_pair_l a b :
  available a = true -> verified a = true ->
  available b = true -> verified b = true ->
  getLevelId a <> getLevelId b ->
  levelOf [a; b] a = [a] /\ levelOf [a; b] b = [b].
Proof.
  intros Ha Hv Ha' Hv' Hne. unfold levelOf, availableLocations. simpl.
  rewrite Ha, Hv, Ha', Hv'. simpl. rewrite !String.eqb_refl.
  assert (E1 : String.eqb (getLevelId b) (getLevelId a) = false)
    by (apply String.eqb_neq; congruence).
  assert (E2 : String.eqb (getLevelId a) (getLevelId b) = false)
    by now apply String.eqb_neq.
  now rewrite E1, E2.
Qed.

(** C1, as stated, fails: with 100 kg to place and the two empty slots
    of row A, bay 01 on tiers 0 and 1, the slot on tier 1 is returned.
    Its score is 200 + 1400 + 66.67 against 0 + 1900 + 50 for the slot
    on tier 0: the unused capacity of the level outweighs the height
    penalty. *)
Lemma ground_tier_not_selected :
  findOptimalLocation [groundSlot; firstSlot] (Z2num 100)
  = Return (Some firstSlot)
  /\ level firstSlot = "1" /\ level groundSlot = "0".
Proof. vm_compute. repeat split; reflexivity. Qed.

(** C1, amended.  For 100 kg over exactly two available, verified and
    empty locations of one row and bay, one on tier 0 and one on tier 1,
    whose distance score is a number of magnitude at most 2^40 (so that
    both scores stay far below [Number.MAX_SAFE_INTEGER], where the
    filter after scoring would interfere), [findOptimalLocation] returns
    the location on tier 1, in whichever order the two are listed. *)
Theorem same_bay_first_tier_selected l0 l1 d :
  row l0 = row l1 -> bay l0 = bay l1 ->
  level l0 = "0" -> level l1 = "1" ->
  available l0 = true -> verified l0 = true ->
  available l1 = true -> verified l1 = true ->
  orZero (currentWeight l0) == 0 -> orZero (currentWeight l1) == 0 ->
  calculateDistanceScore (row l0) (bay l0) = Num d ->
  Qabs d <= 1099511627776 ->
  findOptimalLocation [l0; l1] (Z2num 100) = Return (Some l1)
  /\ findOptimalLocation [l1; l0] (Z2num 100) = Return (Some l1).
Proof.
  intros Hr Hb Hl0 Hl1 Ha0 Hv0 Ha1 Hv1 Hc0 Hc1 Hd Hbound.
  apply Qabs_Qle_condition in Hbound.
  assert (Hd1 : calculateDistanceScore (row l1) (bay l1) = Num d)
    by now rewrite <- Hr, <- Hb.
  assert (Hne : getLevelId l0 <> getLevelId l1).
  { intros E. apply (getLevelId_level _ _ Hr Hb) in E. congruence. }
  assert (Hrank : forall locations,
             levelOf locations l0 = [l0] -> levelOf locations l1 = [l1] ->
             eligible locations (Z2num 100) l0 = true
             /\ eligible locations (Z2num 100) l1 = true
             /\ notSentinel (scoredOf locations (Z2num 100) l1) = true
             /\ num_gt (byScore (scoredOf locations (Z2num 100) l0)
                                (scoredOf locations (Z2num 100) l1))
                       (Z2num 0) = true
             /\ num_gt (byScore (scoredOf locations (Z2num 100) l1)
                                (scoredOf locations (Z2num 100) l0))
                       (Z2num 0) = false).
  { intros locations E0 E1.
    destruct (empty_ground_level locations l0 d Hl0 E0 Ha0 Hv0 Hc0 Hd)
      as (He0 & s0 & Hs0 & Hq0).
    destruct (empty_first_level locations l1 d Hl1 E1 Ha1 Hv1 Hc1 Hd1)
      as (He1 & s1 & Hs1 & Hq1).
    repeat split; [exact He0 | exact He1 | | |].
    - unfold notSentinel, num_strict_neq. simpl. rewrite Hs1.
      apply negb_true_iff, not_true_iff_false. intros E.
      apply num_strict_eq_Num in E. rewrite Hq1 in E.
      unfold inject_Z in E. lra.
    - unfold byScore. simpl. rewrite Hs0, Hs1.
      apply num_gt_Num. rewrite Hq0, Hq1. unfold inject_Z. lra.
    - unfold byScore. simpl. rewrite Hs0, Hs1.
      apply num_gt_Num_false. rewrite Hq0, Hq1. unfold inject_Z. lra. }
  split; apply findOptimalLocation_Some.
  - destruct (levelOf_pair_l l0 l1 Ha0 Hv0 Ha1 Hv1 Hne) as [E0 E1].
    destruct (Hrank _ E0 E1) as (He0 & He1 & Hs1 & Hgt & _).
    unfold ranked, candidates, availableLocations. simpl.
    rewrite Ha0, Hv0, Ha1, Hv1. simpl. rewrite He0, He1. simpl.
    rewrite Hs1.
    destruct (notSentinel (scoredOf [l0; l1] (Z2num 100) l0)); simpl;
      [now rewrite Hgt | reflexivity].
  - assert (Hne' : getLevelId l1 <> getLevelId l0) by congruence.
    destruct (levelOf_pair_l l1 l0 Ha1 Hv1 Ha0 Hv0 Hne') as [E1 E0].
    destruct (Hrank _ E0 E1) as (He0 & He1 & Hs1 & _ & Hle).
    unfold ranked, candidates, availableLocations. simpl.
    rewrite Ha0, Hv0, Ha1, Hv1. simpl. rewrite He0, He1. simpl.
    rewrite Hs1.
    destruct (notSentinel (scoredOf [l1; l0] (Z2num 100) l0)); simpl;
      [now rewrite Hle | reflexivity].
Qed.

Lemma same_bay_first_tier_selected_witness :
  findOptimalLocation [groundSlot; firstSlot] (Z2num 100)
  = Return (Some firstSlot)
  /\ findOptimalLocation [firstSlot; groundSlot] (Z2num 100)
     = Return (Some firstSlot).
Proof.
  apply (same_bay_first_tier_selected groundSlot firstSlot 0);
    vm_compute; try reflexivity; discriminate.
Defined.

(** ** The configured tiers *)

Lemma LEVEL_MAX_WEIGHTS_Some lvl m :
  LEVEL_MAX_WEIGHTS !! lvl = Some m ->
  (lvl = "0" /\ m = 2000) \/ (lvl = "1" /\ m = 1500) \/ (lvl = "2" /\ m = 1000)
  \/ (lvl = "3" /\ m = 750) \/ (lvl = "4" /\ m = 500).
Proof.
  unfold LEVEL_MAX_WEIGHTS. simpl.
  rewrite !lookup_insert_Some, lookup_empty. intros H.
  repeat (destruct H as [[<- <-]|[_ H]]; [tauto|]). discriminate.
Qed.

Lemma append_assoc (s t u : string) :
  ((s ++ t) ++ u = s ++ t ++ u)%string.
Proof.
  induction s as [|c s IH]; [reflexivity|].
  change (String c ((s ++ t) ++ u) = String c (s ++ t ++ u))%string.
  now rewrite IH.
Qed.

Lemma append_last_char (s1 s2 : string) a b :
  (s1 ++ String a "" = s2 ++ String b "")%string -> a = b.
Proof.
  revert s2. induction s1 as [|c s1 IH]; intros [|c2 s2]; simpl; intros H.
  - now injection H.
  - injection H as _ H. now destruct s2.
  - injection H as _ H. now destruct s1.
  - injection H as _ H. eauto.
Qed.

(** Two locations of configured tiers with one level key are on the
    same tier. *)
Lemma getLevelId_configured a b ma mb :
  LEVEL_MAX_WEIGHTS !! level a = Some ma ->
  LEVEL_MAX_WEIGHTS !! level b = Some mb ->
  getLevelId a = getLevelId b -> level a = level b.
Proof.
  intros Ha Hb. unfold getLevelId.
  rewrite <- !append_assoc.
  apply LEVEL_MAX_WEIGHTS_Some in Ha, Hb.
  destruct Ha as [[-> _]|[[-> _]|[[-> _]|[[-> _]|[-> _]]]]],
           Hb as [[-> _]|[[-> _]|[[-> _]|[[-> _]|[-> _]]]]];
    intros H; apply append_last_char in H; congruence.
Qed.

(** ** The locations offered by [getAvailableLocations] *)

Lemma fold_groupStep_default (ls : list Location) k :
  default [] (fold_left groupStep ls ∅ !! k)
  = List.filter (fun loc => String.eqb (getLevelId loc) k) ls.
Proof.
  rewrite fold_groupStep_lookup, lookup_empty.
  now destruct (List.filter _ _).
Qed.

Lemma getAvailableLocations_eq docs requiredWeight :
  getAvailableLocations docs requiredWeight
  = List.filter
      (fun l => num_le (newLevelWeightOf docs requiredWeight l)
                       (toNumber (LEVEL_MAX_WEIGHTS !! level l)))
      (availableLocations docs).
Proof.
  unfold getAvailableLocations. apply List.filter_ext. intros l.
  now rewrite fold_groupStep_default.
Qed.

Lemma num_le_NaN_r a : num_le a NaN = false.
Proof. now destruct a. Qed.

Lemma getAvailableLocations_sound docs requiredWeight l :
  In l (getAvailableLocations docs requiredWeight) ->
  In l docs /\ available l = true /\ verified l = true
  /\ exists m, LEVEL_MAX_WEIGHTS !! level l = Some m
               /\ num_le (num_add (Num (getLevelWeight (levelOf docs l)))
                                  requiredWeight)
                         (Num m) = true.
Proof.
  rewrite getAvailableLocations_eq. unfold availableLocations.
  rewrite !filter_In, andb_true_iff. unfold newLevelWeightOf.
  intros [(Hin & Ha & Hv) H]. repeat split; try assumption.
  destruct (LEVEL_MAX_WEIGHTS !! level l) as [m|]; simpl in H.
  - exists m. split; [reflexivity | exact H].
  - rewrite num_le_NaN_r in H. discriminate.
Qed.

Lemma getAvailableLocations_NaN docs : getAvailableLocations docs NaN = [].
Proof.
  rewrite getAvailableLocations_eq. apply filter_none. intros l _.
  unfold newLevelWeightOf. reflexivity.
Qed.

(** For configured tiers the filter of [getAvailableLocations] is the
    capacity filter of [findOptimalLocation]. *)
Lemma getAvailableLocations_candidates docs w :
  (forall l, In l docs -> available l = true -> verified l = true ->
             is_Some (LEVEL_MAX_WEIGHTS !! level l)) ->
  getAvailableLocations docs (Num w) = candidates docs (Num w).
Proof.
  intros Hconf. rewrite getAvailableLocations_eq. unfold candidates.
  apply List.filter_ext_in. intros l Hl.
  apply filter_In in Hl. destruct Hl as [Hin Hav].
  apply andb_true_iff in Hav. destruct Hav as [Ha Hv].
  rewrite eligible_eq, Ha, Hv. unfold breachesCap.
  destruct (Hconf l Hin Ha Hv) as [m ->]. unfold newLevelWeightOf. simpl.
  now rewrite negb_involutive.
Qed.

Lemma filter_absorb {A : Type} (p q : A -> bool) (xs : list A) :
  (forall x, In x xs -> p x = true -> q x = true) ->
  List.filter p (List.filter q xs) = List.filter p xs.
Proof.
  induction xs as [|x rest IH]; intros H; simpl; [reflexivity|].
  assert (IH' : List.filter p (List.filter q rest) = List.filter p rest)
    by (apply IH; intros y Hy; apply H; now right).
  destruct (q x) eqn:Q; simpl.
  - now rewrite IH'.
  - rewrite IH'. destruct (p x) eqn:P; [|reflexivity].
    rewrite (H x (or_introl eq_refl) P) in Q. discriminate.
Qed.

Lemma levelOf_same_key docs a b :
  getLevelId a = getLevelId b -> levelOf docs a = levelOf docs b.
Proof. unfold levelOf. now intros ->. Qed.

(** The level of an eligible location, among the eligible locations
    alone, is its level among all: a level of a configured tier is
    eligible as a whole or not at all. *)
Lemma levelOf_candidates docs weight c :
  (forall l, In l docs -> available l = true -> verified l = true ->
             is_Some (LEVEL_MAX_WEIGHTS !! level l)) ->
  In c (candidates docs weight) ->
  levelOf (candidates docs weight) c = levelOf docs c.
Proof.
  intros Hconf Hc. unfold levelOf at 1.
  assert (Hav : availableLocations (candidates docs weight)
                = candidates docs weight).
  { apply filter_all. intros x Hx. apply candidates_In in Hx.
    destruct Hx as (_ & -> & -> & _). reflexivity. }
  rewrite Hav. unfold candidates. apply filter_absorb.
  intros x Hx Hkey. apply String.eqb_eq in Hkey.
  apply candidates_In in Hc. destruct Hc as (Hcin & Hca & Hcv & Hce).
  apply filter_In in Hx. destruct Hx as [Hxin Hxav].
  apply andb_true_iff in Hxav. destruct Hxav as [Hxa Hxv].
  destruct (Hconf x Hxin Hxa Hxv) as [mx Hmx].
  destruct (Hconf c Hcin Hca Hcv) as [mc Hmc].
  pose proof (getLevelId_configured _ _ _ _ Hmx Hmc Hkey) as Hlevel.
  rewrite eligible_eq in Hce |- *. rewrite Hxa, Hxv. rewrite Hca, Hcv in Hce.
  unfold breachesCap, newLevelWeightOf in *.
  now rewrite (levelOf_same_key docs x c Hkey), Hlevel.
Qed.

Lemma ranked_candidates docs weight :
  (forall l, In l docs -> available l = true -> verified l = true ->
             is_Some (LEVEL_MAX_WEIGHTS !! level l)) ->
  ranked (candidates docs weight) weight = ranked docs weight.
Proof.
  intros Hconf. unfold ranked. f_equal.
  assert (Hcand : candidates (candidates docs weight) weight
                  = candidates docs weight).
  { unfold candidates at 1.
    assert (Hav : availableLocations (candidates docs weight)
                  = candidates docs weight).
    { apply filter_all. intros x Hx. apply candidates_In in Hx.
      destruct Hx as (_ & -> & -> & _). reflexivity. }
    rewrite Hav. apply filter_all. intros x Hx.
    unfold eligible. rewrite (levelOf_candidates _ _ _ Hconf Hx).
    apply candidates_In in Hx. now destruct Hx as (_ & _ & _ & He). }
  rewrite Hcand. apply map_ext_in. intros c Hc.
  unfold scoredOf, scoreOf. now rewrite (levelOf_candidates _ _ _ Hconf Hc).
Qed.

(** X1.  When every available and verified document has a configured
    tier, the filter of [getAvailableLocations] changes nothing in the
    suggestion: [findOptimalLocation] over the offered locations returns
    what it returns over the whole collection. *)
Theorem prefilter_keeps_the_suggestion docs w :
  (forall l, In l docs -> available l = true -> verified l = true ->
             is_Some (LEVEL_MAX_WEIGHTS !! level l)) ->
  findOptimalLocation (getAvailableLocations docs (Num w)) (Num w)
  = findOptimalLocation docs (Num w).
Proof.
  intros Hconf. rewrite (getAvailableLocations_candidates _ _ Hconf).
  rewrite !findOptimalLocation_eq. now rewrite (ranked_candidates _ _ Hconf).
Qed.

(** ** The range of the weight score *)



(** ** The aggregate weight and the weights that count *)

Lemma getLevelWeight_Permutation xs ys :
  Permutation xs ys -> getLevelWeight xs == getLevelWeight ys.
Proof.
  induction 1 as [|x xs ys _ IH|x y xs|xs ys zs _ IH1 _ IH2].
  - reflexivity.
  - now rewrite !getLevelWeight_cons, IH.
  - rewrite !getLevelWeight_cons. lra.
  - now rewrite IH1.
Qed.

(** X3.  For locations whose weights are whole numbers, none negative,
    with an aggregate below 2^53 (the sums of the program are then
    exact), the aggregate weight of a level does not depend on the
    order of its locations. *)
Theorem level_weight_independent_of_order xs ys :
  Permutation xs ys ->
  (forall l, In l xs ->
             wholeNumber (orZero (currentWeight l))
             /\ 0 <= orZero (currentWeight l)) ->
  getLevelWeight xs < 9007199254740992 ->
  getLevelWeight xs == getLevelWeight ys.
Proof.
  intros Hperm Hwhole Hbound. now apply getLevelWeight_Permutation.
Qed.

Lemma level_weight_independent_of_order_witness :
  getLevelWeight [groundSlot; loadedSlot] == getLevelWeight [loadedSlot; groundSlot].
Proof.
  apply (level_weight_independent_of_order
           [groundSlot; loadedSlot] [loadedSlot; groundSlot]).
  - apply perm_swap.
  - intros l [<-|[<-|[]]]; (split; [|vm_compute; discriminate]).
    + exists 0%Z. reflexivity.
    + exists 1800%Z. reflexivity.
  - vm_compute. reflexivity.
Defined.

Lemma orZero_falsy v : truthy v = false -> orZero v = 0.
Proof.
  destruct v as [[q|]|]; simpl; try reflexivity.
  rewrite negb_false_iff. now intros ->.
Qed.

Lemma getLevelWeight_truthy ls :
  getLevelWeight (List.filter (fun l => truthy (currentWeight l)) ls)
  == getLevelWeight ls.
Proof.
  induction ls as [|l rest IH]; simpl; [reflexivity|].
  destruct (truthy (currentWeight l)) eqn:E.
  - now rewrite !getLevelWeight_cons, IH.
  - rewrite getLevelWeight_cons, IH, (orZero_falsy _ E). lra.
Qed.

Lemma getLevelWeight_falsy ls :
  (forall l, In l ls -> truthy (currentWeight l) = false) ->
  getLevelWeight ls == 0.
Proof.
  intros H. rewrite <- getLevelWeight_truthy, filter_none by exact H.
  reflexivity.
Qed.

(** X4.  Only the locations with a truthy [currentWeight] count in the
    aggregate weight of a level: a weight that is missing, [NaN] or zero
    adds nothing, and a level without truthy weights weighs zero. *)
Theorem falsy_weights_add_nothing ls :
  getLevelWeight (List.filter (fun l => truthy (currentWeight l)) ls)
  == getLevelWeight ls
  /\ ((forall l, In l ls -> truthy (currentWeight l) = false) ->
      getLevelWeight ls == 0).
Proof.
  split; [apply getLevelWeight_truthy | apply getLevelWeight_falsy].
Qed.

(** ** The availability written by [updateLocation] *)

Lemma updateLocationAvailable_eq v :
  updateLocationAvailable v = negb (truthy v).
Proof.
  unfold updateLocationAvailable.
  destruct v as [[q|]|]; simpl; try reflexivity.
  change (inject_Z 0) with 0. now destruct (Qeq_bool q 0).
Qed.

(** ** Properties of the data-access layer and of its callers *)

(** X5.  [getAvailableLocations] offers exactly the documents that are
    available and verified, whose tier has a configured maximum, and for
    which the aggregate weight of the level (over the available and
    verified documents) plus the required weight, added and compared as
    the program adds and compares them, is at most that maximum.  In
    particular a document of an unconfigured tier is never offered. *)
Theorem offered_locations_characterised docs requiredWeight l :
  In l (getAvailableLocations docs requiredWeight) <->
  In l docs /\ available l = true /\ verified l = true
  /\ exists m, LEVEL_MAX_WEIGHTS !! level l = Some m
               /\ num_le (num_add (Num (getLevelWeight (levelOf docs l)))
                                  requiredWeight)
                         (Num m) = true.
Proof.
  split; [apply getAvailableLocations_sound|].
  intros (Hin & Ha & Hv & m & Hm & H).
  rewrite getAvailableLocations_eq. apply filter_In. split.
  - unfold availableLocations. apply filter_In.
    split; [exact Hin | now rewrite Ha, Hv].
  - unfold newLevelWeightOf. rewrite Hm. exact H.
Qed.

(** X6.  The location that the goods-in page suggests, the result of
    [findOptimalLocation] over the locations offered by
    [getAvailableLocations] for the same weight, is a document of the
    collection that is available and verified and has a configured
    tier; the aggregate weight of its level over the available and
    verified documents of the collection plus the weight, added and
    compared as the program adds and compares them, is at most the
    maximum of the tier. *)
Theorem suggested_location_within_collection_cap docs weight r :
  findOptimalLocation (getAvailableLocations docs weight) weight
  = Return (Some r) ->
  In r docs /\ available r = true /\ verified r = true
  /\ exists m, LEVEL_MAX_WEIGHTS !! level r = Some m
               /\ num_le (num_add (Num (getLevelWeight (levelOf docs r)))
                                  weight)
                         (Num m) = true.
Proof.
  intros H. apply findOptimalLocation_ranked in H. destruct H as [H _].
  apply candidates_In in H. destruct H as (H & _).
  now apply getAvailableLocations_sound.
Qed.

Lemma suggested_location_within_collection_cap_witness :
  In groundSlot [closedSlot; groundSlot; unknownTierSlot]
  /\ available groundSlot = true /\ verified groundSlot = true
  /\ exists m, LEVEL_MAX_WEIGHTS !! level groundSlot = Some m
               /\ num_le
                    (num_add
                       (Num (getLevelWeight
                               (levelOf [closedSlot; groundSlot; unknownTierSlot]
                                        groundSlot)))
                       (Num 300))
                    (Num m) = true.
Proof.
  apply (suggested_location_within_collection_cap
           [closedSlot; groundSlot; unknownTierSlot] (Num 300) groundSlot).
  vm_compute. reflexivity.
Defined.

Lemma prefilter_keeps_the_suggestion_witness :
  findOptimalLocation (getAvailableLocations [groundSlot; firstSlot] (Num 100))
                      (Num 100)
  = findOptimalLocation [groundSlot; firstSlot] (Num 100).
Proof.
  apply (prefilter_keeps_the_suggestion [groundSlot; firstSlot] 100).
  intros l [<-|[<-|[]]] _ _; vm_compute; now eexists.
Defined.

(** X7.  With a required weight that is [NaN], [getAvailableLocations]
    offers no location, so that [findOptimalLocation] over its result
    suggests none. *)
Theorem no_suggestion_for_NaN_weight docs :
  getAvailableLocations docs NaN = []
  /\ findOptimalLocation (getAvailableLocations docs NaN) NaN = Return None.
Proof.
  rewrite getAvailableLocations_NaN. split; reflexivity.
Qed.

(** X8.  The level key is the plain concatenation of row and bay: two
    available and verified locations whose rows and bays differ but
    concatenate to the same text, on the same tier, have one key and
    form one level, so the weight of each counts against the other. *)
Theorem level_key_merges_row_and_bay l1 l2 :
  (row l1 ++ bay l1)%string = (row l2 ++ bay l2)%string ->
  level l1 = level l2 ->
  available l1 = true -> verified l1 = true ->
  available l2 = true -> verified l2 = true ->
  getLevelId l1 = getLevelId l2
  /\ levelOf [l1; l2] l1 = [l1; l2]
  /\ levelOf [l1; l2] l2 = [l1; l2].
Proof.
  intros Hrb Hl Ha1 Hv1 Ha2 Hv2.
  assert (Hk : getLevelId l1 = getLevelId l2).
  { unfold getLevelId. now rewrite <- !append_assoc, Hrb, Hl. }
  split; [exact Hk|].
  unfold levelOf, availableLocations. simpl.
  rewrite Ha1, Hv1, Ha2, Hv2. simpl.
  now rewrite Hk, !String.eqb_refl.
Qed.

Lemma level_key_merges_row_and_bay_witness :
  getLevelId loadedSlot = getLevelId shiftedSlot
  /\ levelOf [loadedSlot; shiftedSlot] loadedSlot = [loadedSlot; shiftedSlot]
  /\ levelOf [loadedSlot; shiftedSlot] shiftedSlot = [loadedSlot; shiftedSlot].
Proof.
  apply (level_key_merges_row_and_bay loadedSlot shiftedSlot); reflexivity.
Defined.

Lemma parseInt_leading_zero d s :
  isNonZeroDigit d = true ->
  parseInt (String "0" (String d s)) = parseInt (String d s).
Proof.
  destruct d as [[] [] [] [] [] [] [] []]; try discriminate; intros _;
    reflexivity.
Qed.

(** X9.  A zero in front of a bay number that starts with another digit
    does not change the distance score: bay "01" is bay "1". *)
Theorem distance_score_ignores_leading_zero row d s :
  isNonZeroDigit d = true ->
  calculateDistanceScore row (String "0" (String d s))
  = calculateDistanceScore row (String d s).
Proof.
  intros H. unfold calculateDistanceScore.
  now rewrite (parseInt_leading_zero d s H).
Qed.

Lemma distance_score_ignores_leading_zero_witness :
  calculateDistanceScore "B" "012" = calculateDistanceScore "B" "12".
Proof.
  apply (distance_score_ignores_leading_zero "B" "1" "2"). reflexivity.
Defined.

(** X10.  The distance score is [NaN] exactly when the row is empty or
    the bay does not start with a number; otherwise it is an integer. *)
Theorem distance_score_is_integer_or_NaN row bay :
  (calculateDistanceScore row bay = NaN <-> row = "" \/ parseInt bay = NaN)
  /\ (forall d, calculateDistanceScore row bay = Num d ->
                 exists z, d == inject_Z z).
Proof.
  split; [|intros d; apply calculateDistanceScore_integer].
  unfold calculateDistanceScore.
  destruct row as [|c r]; simpl.
  - split; [now left | reflexivity].
  - destruct (parseInt bay); simpl; split; try discriminate; auto.
    intros [H|H]; discriminate.
Qed.

(** X11.  The [available] field written by [updateLocation] is true
    exactly when the [currentWeight] of the update is missing, [NaN] or
    zero: the comparison with 0 in the other branch is never true.  A
    location written as available therefore holds no weight. *)
Theorem update_marks_available_iff_weight_falsy stored v :
  available (updateLocation stored v) = negb (truthy v)
  /\ (forall n, v = Some n ->
        available (updateLocation stored v) = true ->
        orZero (currentWeight (updateLocation stored v)) = 0).
Proof.
  split; [apply updateLocationAvailable_eq|].
  intros n -> H. simpl in *. rewrite updateLocationAvailable_eq in H.
  apply negb_true_iff in H. exact (orZero_falsy (Some n) H).
Qed.

(** X12.  The weight written when an item is picked is never negative,
    and it is zero when the picked weight is at least the stored
    weight. *)
Theorem picked_weight_is_never_negative scanned w :
  exists q, scannedCurrentWeight ActionOut scanned (Num w) = Num q
            /\ 0 <= q
            /\ (orZero (currentWeight scanned) <= w -> q == 0).
Proof.
  unfold scannedCurrentWeight, num_max, num_sub, Z2num.
  eexists. split; [reflexivity|].
  destruct (Qle_bool (inject_Z 0) (orZero (currentWeight scanned) - w)) eqn:E.
  - apply Qle_bool_iff in E. unfold inject_Z in E. split; [lra|].
    intros H. lra.
  - unfold inject_Z. split; [lra | reflexivity].
Qed.

(** X13.  For whole numbers of kilograms (the sum and the difference
    of the program are then exact), placing a weight and picking the
    same weight again restores the weight of a location: the stored
    weight and the placed weight are whole numbers, neither is
    negative, and their sum is within 2^53. *)
Theorem place_then_pick_restores_weight scanned w :
  wholeNumber (orZero (currentWeight scanned)) -> wholeNumber w ->
  0 <= orZero (currentWeight scanned) -> 0 <= w ->
  orZero (currentWeight scanned) + w <= 9007199254740992 ->
  num_same (scannedCurrentWeight ActionOut
              (handleScan ActionIn scanned (Num w)) (Num w))
           (Num (orZero (currentWeight scanned))).
Proof.
  intros Hwc Hww H Hw Hbound.
  unfold handleScan, scannedCurrentWeight, updateLocation. simpl.
  set (c := orZero (currentWeight scanned)) in *.
  assert (Hc : (if Qeq_bool (c + w) 0 then 0 else c + w) == c + w).
  { destruct (Qeq_bool (c + w) 0) eqn:E; [|reflexivity].
    apply Qeq_bool_iff in E. now rewrite E. }
  destruct (Qle_bool (inject_Z 0) _) eqn:E.
  - rewrite Hc. lra.
  - assert (E' : ~ inject_Z 0 <= (if Qeq_bool (c + w) 0 then 0 else c + w) - w)
      by (intros E'; apply Qle_bool_iff in E'; congruence).
    rewrite Hc in E'. unfold inject_Z in *. lra.
Qed.

Lemma place_then_pick_restores_weight_witness :
  num_same (scannedCurrentWeight ActionOut
              (handleScan ActionIn loadedSlot (Num 150)) (Num 150))
           (Num (orZero (currentWeight loadedSlot))).
Proof.
  apply (place_then_pick_restores_weight loadedSlot 150).
  - exists 1800%Z. reflexivity.
  - exists 150%Z. reflexivity.
  - vm_compute. discriminate.
  - vm_compute. discriminate.
  - vm_compute. discriminate.
Defined.

(** X14.  Once a positive weight has been placed on a location whose
    weight was not negative, the location is stored as unavailable, and
    [findOptimalLocation] does not return it from any collection. *)
Theorem placed_location_is_not_suggested_again scanned w :
  0 <= orZero (currentWeight scanned) -> 0 < w ->
  available (handleScan ActionIn scanned (Num w)) = false
  /\ forall locations weight,
       findOptimalLocation locations weight
       <> Return (Some (handleScan ActionIn scanned (Num w))).
Proof.
  intros Hc Hw.
  assert (Ha : available (handleScan ActionIn scanned (Num w)) = false).
  { unfold handleScan, updateLocation. simpl.
    rewrite updateLocationAvailable_eq. apply negb_false_iff.
    unfold scannedCurrentWeight. simpl. apply negb_true_iff.
    apply not_true_iff_false. intros E. apply Qeq_bool_iff in E. lra. }
  split; [exact Ha|].
  intros locations weight H.
  apply findOptimalLocation_ranked in H. destruct H as [H _].
  apply candidates_In in H. destruct H as (_ & Ha' & _). congruence.
Qed.

Lemma placed_location_is_not_suggested_again_witness :
  available (handleScan ActionIn groundSlot (Num 100)) = false
  /\ forall locations weight,
       findOptimalLocation locations weight
       <> Return (Some (handleScan ActionIn groundSlot (Num 100))).
Proof.
  apply (placed_location_is_not_suggested_again groundSlot 100);
    vm_compute; [discriminate | reflexivity].
Defined.

(** X15.  In a collection whose documents were all written by
    [updateLocation] with a weight, every level has aggregate weight
    zero in the eyes of the allocation: the documents that hold a
    weight are the ones stored as unavailable. *)
Theorem levels_of_updated_collection_are_empty
    (updates : list (Location * number)) c :
  getLevelWeight
    (levelOf (List.map (fun u => updateLocation (fst u) (Some (snd u))) updates) c)
  == 0.
Proof.
  apply getLevelWeight_falsy. intros l Hl.
  unfold levelOf, availableLocations in Hl.
  apply filter_In in Hl. destruct Hl as [Hl _].
  apply filter_In in Hl. destruct Hl as [Hl Hav].
  apply in_map_iff in Hl. destruct Hl as ([s n] & <- & _).
  apply andb_true_iff in Hav. destruct Hav as [Ha _].
  simpl in *. rewrite updateLocationAvailable_eq in Ha.
  now apply negb_true_iff in Ha.
Qed.

(** X16.  The document stored by [addLocation] is available and
    verified, carries the maximum configured for its tier, and holds no
    weight: adding it to a collection changes the aggregate weight of no
    level. *)
Theorem added_location_is_empty docs newLocation c :
  available (locationWithDefaults newLocation) = true
  /\ verified (locationWithDefaults newLocation) = true
  /\ maxWeight (locationWithDefaults newLocation)
     = toNumber (LEVEL_MAX_WEIGHTS !! level newLocation)
  /\ getLevelWeight (levelOf (docs ++ [locationWithDefaults newLocation]) c)
     == getLevelWeight (levelOf docs c).
Proof.
  repeat split.
  unfold levelOf, availableLocations. rewrite !List.filter_app.
  rewrite getLevelWeight_app. simpl.
  destruct (String.eqb _ _); unfold getLevelWeight; simpl; lra.
Qed.

(** ** The statistics of the dashboard *)

Lemma stats_fold (ls : list Location) :
  forall acc,
    Dashboard.total (fold_left Dashboard.statsStep ls acc)
    = (Dashboard.total acc + Z.of_nat (length ls))%Z
    /\ Dashboard.empty (fold_left Dashboard.statsStep ls acc)
       = (Dashboard.empty acc
          + Z.of_nat (length (List.filter
                                (fun l => Dashboard.isZero (currentWeight l)) ls)))%Z
    /\ Dashboard.occupied (fold_left Dashboard.statsStep ls acc)
       = (Dashboard.occupied acc
          + Z.of_nat (length (List.filter
                                (fun l => negb (Dashboard.isZero (currentWeight l)))
                                ls)))%Z.
Proof.
  induction ls as [|l rest IH]; intros acc; simpl fold_left.
  - simpl. lia.
  - destruct (IH (Dashboard.statsStep acc l)) as (-> & -> & ->).
    unfold Dashboard.statsStep. simpl List.filter.
    destruct (Dashboard.isZero (currentWeight l)); simpl; lia.
Qed.

Lemma filter_partition_length {A : Type} (p : A -> bool) (xs : list A) :
  (length (List.filter p xs) + length (List.filter (fun x => negb (p x)) xs)
   = length xs)%nat.
Proof.
  induction xs as [|x rest IH]; simpl; [reflexivity|].
  destruct (p x); simpl; lia.
Qed.

(** X17.  The statistics of the dashboard count every fetched location
    once: [total] is the number of locations, [empty] the number of
    those whose [currentWeight] is exactly 0, and [occupied] the number
    of all others, a location with no [currentWeight] among them. *)
Theorem dashboard_stats_count fetchedLocations :
  Dashboard.total (Dashboard.stats fetchedLocations)
  = Z.of_nat (length fetchedLocations)
  /\ Dashboard.empty (Dashboard.stats fetchedLocations)
     = Z.of_nat (length (List.filter
                           (fun l => Dashboard.isZero (currentWeight l))
                           fetchedLocations))
  /\ (Dashboard.empty (Dashboard.stats fetchedLocations)
      + Dashboard.occupied (Dashboard.stats fetchedLocations)
      = Dashboard.total (Dashboard.stats fetchedLocations))%Z
  /\ (forall l, currentWeight l = None ->
                 Dashboard.occupied (Dashboard.stats [l]) = 1%Z).
Proof.
  unfold Dashboard.stats.
  destruct (stats_fold fetchedLocations
              {| Dashboard.total := 0; Dashboard.empty := 0;
                 Dashboard.occupied := 0 |}) as (Ht & He & Ho).
  rewrite Ht, He, Ho. simpl.
  pose proof (filter_partition_length
                (fun l => Dashboard.isZero (currentWeight l)) fetchedLocations).
  repeat split; try lia.
  intros l Hl. unfold Dashboard.statsStep. now rewrite Hl.
Qed.

(** X18.  The occupancy rate of the dashboard is [NaN] when no location
    was fetched, and otherwise a number between 0 and 100. *)
Theorem occupancy_rate_range fetchedLocations :
  (fetchedLocations = [] ->
   Dashboard.occupancyRate (Dashboard.stats fetchedLocations) = NaN)
  /\ (fetchedLocations <> [] ->
      exists q,
        Dashboard.occupancyRate (Dashboard.stats fetchedLocations) = Num q
        /\ 0 <= q /\ q <= 100).
Proof.
  split; [now intros ->|]. intros Hne.
  unfold Dashboard.stats, Dashboard.occupancyRate.
  destruct (stats_fold fetchedLocations
              {| Dashboard.total := 0; Dashboard.empty := 0;
                 Dashboard.occupied := 0 |}) as (Ht & _ & Ho).
  rewrite Ht, Ho. simpl Dashboard.total. simpl Dashboard.occupied.
  pose proof (filter_partition_length
                (fun l => Dashboard.isZero (currentWeight l)) fetchedLocations)
    as Hlen.
  cbv beta in Hlen.
  set (occ := (0 + Z.of_nat (length (List.filter
                 (fun l => negb (Dashboard.isZero (currentWeight l)))
                 fetchedLocations)))%Z) in *.
  set (tot := (0 + Z.of_nat (length fetchedLocations))%Z) in *.
  assert (Htot : (0 < tot)%Z).
  { subst tot. destruct fetchedLocations; [congruence | simpl; lia]. }
  assert (Hocc : (0 <= occ <= tot)%Z) by (subst occ tot; lia).
  unfold num_div, num_mul, Z2num.
  assert (Hq : 0 < inject_Z tot) by (rewrite (Zlt_Qlt 0 tot) in Htot; exact Htot).
  destruct (Qeq_bool (inject_Z tot) 0) eqn:E.
  { apply Qeq_bool_iff in E. lra. }
  eexists. split; [reflexivity|].
  assert (H0 : 0 <= inject_Z occ / inject_Z tot).
  { apply Qle_shift_div_l; [exact Hq|]. rewrite Qmult_0_l.
    change (inject_Z 0 <= inject_Z occ). rewrite <- Zle_Qle. lia. }
  assert (H1 : inject_Z occ / inject_Z tot <= 1).
  { apply Qle_shift_div_r; [exact Hq|]. rewrite Qmult_1_l.
    rewrite <- Zle_Qle. lia. }
  set (x := inject_Z occ / inject_Z tot) in *.
  change (inject_Z 100) with 100. split; lra.
Qed.

(** ** The sorted scores *)

Lemma insert_HdRel (le : Scored -> Scored -> Prop) x y (xs : list Scored) :
  le y x -> HdRel le y xs -> HdRel le y (insert byScore x xs).
Proof.
  intros Hyx H. destruct xs as [|z rest]; simpl; [now constructor|].
  inversion H; subst.
  destruct (num_gt _ _); now constructor.
Qed.

Lemma insert_Sorted x (xs : list Scored) :
  is_num (score x) -> (forall s, In s xs -> is_num (score s)) ->
  Sorted (fun a b => num_le (score a) (score b) = true) xs ->
  Sorted (fun a b => num_le (score a) (score b) = true) (insert byScore x xs).
Proof.
  intros Hx Hxs Hs. induction Hs as [|y rest Hrest IH Hd]; simpl.
  - repeat constructor.
  - pose proof (Hxs y (or_introl eq_refl)) as Hy.
    unfold byScore.
    destruct (score x) as [qx|] eqn:Ex; [|destruct Hx].
    destruct (score y) as [qy|] eqn:Ey; [|destruct Hy].
    simpl. destruct (Qle_bool (qx - qy) (inject_Z 0)) eqn:G; simpl.
    + apply Qle_bool_iff in G. unfold inject_Z in G.
      constructor; [now constructor|]. constructor.
      rewrite Ex, Ey. apply num_le_Num. lra.
    + assert (G' : ~ qx - qy <= inject_Z 0)
        by (intros G'; apply Qle_bool_iff in G'; congruence).
      unfold inject_Z in G'.
      constructor.
      * apply IH. intros s Hs'. apply Hxs. now right.
      * apply insert_HdRel; [|exact Hd].
        rewrite Ex, Ey. apply num_le_Num. lra.
Qed.

(** X19.  When the scores are numbers, sorting with the comparator
    [a.score - b.score] arranges the scored locations in ascending order
    of score and keeps every one of them. *)
Theorem sort_by_score_ascending (xs : list Scored) :
  (forall s, In s xs -> is_num (score s)) ->
  Sorted (fun a b => num_le (score a) (score b) = true) (sort byScore xs)
  /\ Permutation xs (sort byScore xs).
Proof.
  intros H. split; [|apply sort_Permutation].
  induction xs as [|x rest IH]; simpl; [constructor|].
  apply insert_Sorted.
  - apply H. now left.
  - intros s Hs. apply H. right.
    eapply Permutation_in; [symmetry; apply sort_Permutation | exact Hs].
  - apply IH. intros s Hs. apply H. now right.
Qed.

Lemma sort_by_score_ascending_witness :
  Sorted (fun a b => num_le (score a) (score b) = true)
         (sort byScore (ranked [secondBaySlot; groundSlot] (Num 500)))
  /\ Permutation (ranked [secondBaySlot; groundSlot] (Num 500))
                 (sort byScore (ranked [secondBaySlot; groundSlot] (Num 500))).
Proof.
  apply (sort_by_score_ascending (ranked [secondBaySlot; groundSlot] (Num 500))).
  intros s Hs.
  assert (E : ranked [secondBaySlot; groundSlot] (Num 500)
              = [scoredOf [secondBaySlot; groundSlot] (Num 500) secondBaySlot;
                 scoredOf [secondBaySlot; groundSlot] (Num 500) groundSlot])
    by (vm_compute; reflexivity).
  rewrite E in Hs. destruct Hs as [<-|[<-|[]]]; vm_compute; exact I.
Defined.

(** ** The repair of stored locations *)

Lemma repair_fold (docs : list Repair.LocationDoc) :
  forall stored updates,
    fold_left Repair.step docs (stored, updates)
    = (stored ++ List.map (fun d => if Repair.needsUpdate d
                                    then Repair.updated d else d) docs,
       (updates + Z.of_nat (length (List.filter Repair.needsUpdate docs)))%Z).
Proof.
  induction docs as [|d rest IH]; intros stored updates; simpl.
  - rewrite app_nil_r. f_equal. lia.
  - destruct (Repair.needsUpdate d); rewrite IH, <- app_assoc; simpl;
      f_equal; lia.
Qed.

Lemma levelMaxWeightOr500_truthy lvl :
  Repair.truthyValue (Some (Repair.levelMaxWeightOr500 lvl)) = true.
Proof.
  unfold Repair.levelMaxWeightOr500.
  destruct (LEVEL_MAX_WEIGHTS !! lvl) as [q|].
  - simpl. destruct (Qeq_bool q 0) eqn:E; simpl; [reflexivity | now rewrite E].
  - now destruct (includes objectPrototypeKeys lvl).
Qed.

Lemma updated_needs_no_update d :
  Repair.needsUpdate (Repair.updated d) = false.
Proof.
  unfold Repair.needsUpdate, Repair.updated.
  cbn [Repair.maxWeight Repair.available Repair.verified].
  now rewrite levelMaxWeightOr500_truthy.
Qed.

Lemma objectPrototypeKeys_unconfigured lvl :
  includes objectPrototypeKeys lvl = true -> LEVEL_MAX_WEIGHTS !! lvl = None.
Proof.
  intros H. apply existsb_exists in H. destruct H as (k & Hk & E).
  apply String.eqb_eq in E. subst k.
  repeat (destruct Hk as [<-|Hk]; [vm_compute; reflexivity|]).
  destruct Hk.
Qed.

(** X20.  The repair is idempotent: a second run over the repaired
    collection changes no document and counts no update.  The count of
    the first run is the number of documents that lacked a limit or a
    flag. *)
Theorem repair_is_idempotent docs :
  Repair.initializeLocationIndexes (fst (Repair.initializeLocationIndexes docs))
  = (fst (Repair.initializeLocationIndexes docs), 0%Z)
  /\ snd (Repair.initializeLocationIndexes docs)
     = Z.of_nat (length (List.filter Repair.needsUpdate docs))
  /\ length (fst (Repair.initializeLocationIndexes docs)) = length docs.
Proof.
  unfold Repair.initializeLocationIndexes. rewrite !repair_fold. simpl.
  split; [|split; [reflexivity | apply length_map]].
  assert (H : forall d,
             In d (List.map (fun d => if Repair.needsUpdate d
                                      then Repair.updated d else d) docs) ->
             Repair.needsUpdate d = false).
  { intros d Hd. apply in_map_iff in Hd. destruct Hd as (d0 & <- & _).
    destruct (Repair.needsUpdate d0) eqn:E;
      [apply updated_needs_no_update | exact E]. }
  f_equal.
  - rewrite <- (map_id (List.map _ docs)) at 2.
    apply map_ext_in. intros d Hd. now rewrite (H d Hd).
  - now rewrite filter_none.
Qed.

(** X21.  A repaired document has a numeric weight and is available
    and verified, whatever the flags it had.  Its limit is the
    configured maximum of its tier; when the tier is not configured it
    is 500, unless the tier is one of the property names inherited from
    [Object.prototype]: then the limit is the inherited value, which is
    not a number.  A numeric limit is at least 500 kg. *)
Theorem repaired_document_is_complete d :
  (forall q, LEVEL_MAX_WEIGHTS !! Repair.level d = Some q ->
             Repair.maxWeight (Repair.updated d)
             = Some (Repair.Number (Num q)) /\ 500 <= q)
  /\ (LEVEL_MAX_WEIGHTS !! Repair.level d = None ->
      includes objectPrototypeKeys (Repair.level d) = false ->
      Repair.maxWeight (Repair.updated d) = Some (Repair.Number (Num 500)))
  /\ (includes objectPrototypeKeys (Repair.level d) = true ->
      Repair.maxWeight (Repair.updated d)
      = Some (Repair.Inherited (Repair.level d)))
  /\ (exists w, Repair.currentWeight (Repair.updated d) = Some (Num w))
  /\ Repair.available (Repair.updated d) = Some true
  /\ Repair.verified (Repair.updated d) = Some true.
Proof.
  unfold Repair.updated, Repair.levelMaxWeightOr500. simpl.
  split; [|split; [|split]].
  - intros q E. rewrite E. apply LEVEL_MAX_WEIGHTS_Some in E.
    destruct E as [[_ ->]|[[_ ->]|[[_ ->]|[[_ ->]|[_ ->]]]]];
      (split; [reflexivity | vm_compute; discriminate]).
  - now intros -> ->.
  - intros H. now rewrite (objectPrototypeKeys_unconfigured _ H), H.
  - repeat split. eexists. reflexivity.
Qed.

(** ** Validation of items and actions *)

Lemma includes_In xs x : includes xs x = true <-> In x xs.
Proof.
  unfold includes. rewrite existsb_exists. split.
  - intros (y & Hy & E). apply String.eqb_eq in E. now subst.
  - intros H. exists x. split; [exact H | apply String.eqb_refl].
Qed.

Lemma isEmpty_false s : isEmpty s = false <-> s <> EmptyString.
Proof. destruct s; simpl; split; congruence. Qed.

Lemma invalidWeight_false w :
  invalidWeight w = false <-> exists q, w = Num q /\ 0 < q.
Proof.
  destruct w as [q|]; simpl.
  - split.
    + intros H. exists q. split; [reflexivity|].
      apply Qnot_le_lt. intros H'. apply Qle_bool_iff in H'. congruence.
    + intros (q' & [= <-] & H). apply not_true_iff_false. intros H'.
      apply Qle_bool_iff in H'. lra.
  - split; [discriminate | now intros (q & H & _)].
Qed.

Lemma trimStart_allWhiteSpace s :
  allWhiteSpace s = true -> trimStart s = EmptyString.
Proof.
  induction s as [|c r IH]; simpl; [reflexivity|].
  intros H. apply andb_true_iff in H. destruct H as [-> H]. auto.
Qed.

Lemma trimStart_head s :
  trimStart s = EmptyString
  \/ exists c r, trimStart s = String c r /\ isWhiteSpace c = false.
Proof.
  induction s as [|c r IH]; simpl; [now left|].
  destruct (isWhiteSpace c) eqn:E; [exact IH | right; eauto].
Qed.

Lemma trimEnd_nonspace c r :
  isWhiteSpace c = false -> trimEnd (String c r) = String c (trimEnd r).
Proof. intros H. simpl. rewrite H. now destruct (trimEnd r). Qed.

Lemma trimEnd_idem s : trimEnd (trimEnd s) = trimEnd s.
Proof.
  induction s as [|c r IH]; simpl; [reflexivity|].
  destruct (trimEnd r) as [|k kept] eqn:E.
  - destruct (isWhiteSpace c) eqn:W; simpl; [reflexivity | now rewrite W].
  - change (trimEnd (String c (String k kept)) = String c (String k kept)).
    simpl trimEnd at 1. simpl in IH. now rewrite IH.
Qed.

Lemma trim_idem s : trim (trim s) = trim s.
Proof.
  unfold trim. destruct (trimStart_head s) as [->|(c & r & -> & W)];
    [reflexivity|].
  rewrite (trimEnd_nonspace c r W). simpl trimStart. rewrite W.
  rewrite <- (trimEnd_nonspace c r W). apply trimEnd_idem.
Qed.

Lemma trimOrNull_Some s t :
  trimOrNull s = Some t ->
  exists text, s = Some text /\ t = trim text /\ trim text <> EmptyString.
Proof.
  destruct s as [text|]; simpl; [|discriminate].
  destruct (isEmpty (trim text)) eqn:E; [discriminate|].
  intros [= <-]. exists text. repeat split. now apply isEmpty_false.
Qed.

Lemma trimOrNull_trimmed text :
  trim text <> EmptyString -> trimOrNull (Some (trim text)) = Some (trim text).
Proof.
  intros H. simpl. rewrite trim_idem.
  apply isEmpty_false in H. now rewrite H.
Qed.

Lemma addItem_Done data stored :
  Items.addItem data = Done stored <->
  (isEmpty (Items.itemCode data) = false
   /\ isEmpty (Items.systemCode data) = false
   /\ isEmpty (Items.description data) = false
   /\ isEmpty (Items.category data) = false)
  /\ invalidWeight (Items.weight data) = false
  /\ includes validCategories (Items.category data) = true
  /\ includes Items.validStatuses (Items.status data) = true
  /\ stored = {| Items.storedItemCode := trim (Items.itemCode data);
                 Items.storedSystemCode := trim (Items.systemCode data);
                 Items.storedDescription := trim (Items.description data);
                 Items.storedWeight := Items.weight data;
                 Items.storedCategory := Items.category data;
                 Items.storedStatus := Items.status data;
                 Items.locationVerified := false;
                 Items.storedDepartment := trimOrNull (Items.department data) |}.
Proof.
  unfold Items.addItem.
  destruct (isEmpty (Items.itemCode data)), (isEmpty (Items.systemCode data)),
    (isEmpty (Items.description data)), (isEmpty (Items.category data));
    cbn [orb];
    try (split; [discriminate | intros [(? & ? & ? & ?) _]; discriminate]).
  destruct (invalidWeight (Items.weight data));
    [split; [discriminate | intros (_ & ? & _); discriminate]|].
  destruct (includes validCategories (Items.category data)); cbn [negb];
    [|split; [discriminate | intros (_ & _ & ? & _); discriminate]].
  destruct (includes Items.validStatuses (Items.status data)); cbn [negb];
    [|split; [discriminate | intros (_ & _ & _ & ? & _); discriminate]].
  split; [intros [= <-]; tauto | intros (_ & _ & _ & _ & ->); reflexivity].
Qed.

(** X22.  [addItem] stores an item exactly when its item code, system
    code and description are not empty, its category is one of the four
    valid categories, its weight is a number above zero, and its status
    is one of the three valid statuses. *)
Theorem addItem_accepts_iff data :
  (exists stored, Items.addItem data = Done stored) <->
  Items.itemCode data <> EmptyString
  /\ Items.systemCode data <> EmptyString
  /\ Items.description data <> EmptyString
  /\ In (Items.category data) validCategories
  /\ (exists q, Items.weight data = Num q /\ 0 < q)
  /\ In (Items.status data) Items.validStatuses.
Proof.
  rewrite <- !isEmpty_false, <- invalidWeight_false, <- !includes_In. split.
  - intros [stored H]. apply addItem_Done in H. tauto.
  - intros (H1 & H2 & H3 & H4 & H5 & H6). eexists. apply addItem_Done.
    repeat split; try assumption.
    destruct (Items.category data); [discriminate H4 | reflexivity].
Qed.

(** X23.  A stored item has a numeric weight above zero, is not
    location-verified, and carries the trimmed item code, which has no
    white space left at either end. *)
Theorem stored_item_is_weighed_and_unverified data stored :
  Items.addItem data = Done stored ->
  (exists q, Items.storedWeight stored = Num q /\ 0 < q)
  /\ Items.locationVerified stored = false
  /\ Items.storedItemCode stored = trim (Items.itemCode data)
  /\ trim (Items.storedItemCode stored) = Items.storedItemCode stored.
Proof.
  intros H. apply addItem_Done in H. destruct H as (_ & Hw & _ & _ & ->).
  simpl. repeat split; [now apply invalidWeight_false | apply trim_idem].
Qed.

Lemma stored_item_is_weighed_and_unverified_witness :
  exists stored,
    Items.addItem coil = Done stored
    /\ (exists q, Items.storedWeight stored = Num q /\ 0 < q)
    /\ Items.locationVerified stored = false
    /\ Items.storedItemCode stored = trim (Items.itemCode coil)
    /\ trim (Items.storedItemCode stored) = Items.storedItemCode stored.
Proof.
  eexists. split; [reflexivity|].
  apply (stored_item_is_weighed_and_unverified coil). reflexivity.
Defined.

(** X24.  The required-field check precedes the trimming: an item code
    made of white space only passes the check and is stored as the
    empty string. *)
Theorem blank_item_code_is_stored_empty data stored :
  Items.addItem data = Done stored ->
  allWhiteSpace (Items.itemCode data) = true ->
  Items.itemCode data <> EmptyString
  /\ Items.storedItemCode stored = EmptyString.
Proof.
  intros H Hws. apply addItem_Done in H.
  destruct H as ((H1 & _) & _ & _ & _ & ->). split.
  - now apply isEmpty_false.
  - simpl. unfold trim. now rewrite (trimStart_allWhiteSpace _ Hws).
Qed.

Lemma blank_item_code_is_stored_empty_witness :
  exists stored,
    Items.addItem blankCoil = Done stored
    /\ Items.itemCode blankCoil <> EmptyString
    /\ Items.storedItemCode stored = EmptyString.
Proof.
  eexists. split; [reflexivity|].
  apply (blank_item_code_is_stored_empty blankCoil); reflexivity.
Defined.

Lemma addAction_Done data action :
  Actions.addAction data = Done action <->
  (isEmpty (Actions.itemId data) = false
   /\ isEmpty (Actions.itemCode data) = false
   /\ isEmpty (Actions.systemCode data) = false
   /\ isEmpty (Actions.description data) = false
   /\ isEmpty (Actions.category data) = false)
  /\ invalidWeight (Actions.weight data) = false
  /\ includes validCategories (Actions.category data) = true
  /\ includes Actions.validActionTypes (Actions.actionType data) = true
  /\ includes Actions.validStatuses (Actions.status data) = true
  /\ action = {| Actions.itemId := Actions.itemId data;
                 Actions.itemCode := trim (Actions.itemCode data);
                 Actions.systemCode := trim (Actions.systemCode data);
                 Actions.description := trim (Actions.description data);
                 Actions.category := Actions.category data;
                 Actions.weight := Actions.weight data;
                 Actions.location := trimOrNull (Actions.location data);
                 Actions.actionType := Actions.actionType data;
                 Actions.status := Actions.status data;
                 Actions.operator := trimOrNull (Actions.operator data);
                 Actions.department := trimOrNull (Actions.department data) |}.
Proof.
  unfold Actions.addAction.
  destruct (isEmpty (Actions.itemId data)), (isEmpty (Actions.itemCode data)),
    (isEmpty (Actions.systemCode data)), (isEmpty (Actions.description data)),
    (isEmpty (Actions.category data));
    cbn [orb];
    try (split; [discriminate | intros [(? & ? & ? & ? & ?) _]; discriminate]).
  destruct (invalidWeight (Actions.weight data));
    [split; [discriminate | intros (_ & ? & _); discriminate]|].
  destruct (includes validCategories (Actions.category data)); cbn [negb];
    [|split; [discriminate | intros (_ & _ & ? & _); discriminate]].
  destruct (includes Actions.validActionTypes (Actions.actionType data));
    cbn [negb];
    [|split; [discriminate | intros (_ & _ & _ & ? & _); discriminate]].
  destruct (includes Actions.validStatuses (Actions.status data)); cbn [negb];
    [|split; [discriminate | intros (_ & _ & _ & _ & ? & _); discriminate]].
  split; [intros [= <-]; tauto | intros (_ & _ & _ & _ & _ & ->); reflexivity].
Qed.

(** The errors of [addAction] when the action type and the status are
    valid. *)
Lemma addAction_Throw data message :
  includes Actions.validActionTypes (Actions.actionType data) = true ->
  includes Actions.validStatuses (Actions.status data) = true ->
  Actions.addAction data = Throw message ->
  In message ["Missing required fields"; "Invalid weight value";
              "Invalid category"].
Proof.
  intros Ht Hs. unfold Actions.addAction. rewrite Ht, Hs. cbn [negb].
  destruct (_ || _); [intros [= <-]; simpl; tauto|].
  destruct (invalidWeight _); [intros [= <-]; simpl; tauto|].
  destruct (negb _); [intros [= <-]; simpl; tauto | discriminate].
Qed.

(** X25.  The goods-in page adds the item and then creates the goods-in
    action from the same data: when [addItem] has accepted the data and
    the new identifier is not empty, [createGoodsInAction] succeeds, and
    the action is a pending 'in' action without a location, with the
    weight and the item code of the stored item. *)
Theorem accepted_item_yields_goods_in_action itemData stored itemId :
  Items.addItem itemData = Done stored ->
  itemId <> EmptyString ->
  exists action,
    createGoodsInAction (withId itemData itemId) = Done action
    /\ Actions.actionType action = "in"
    /\ Actions.status action = "pending"
    /\ Actions.location action = None
    /\ Actions.weight action = Items.storedWeight stored
    /\ Actions.itemCode action = Items.storedItemCode stored.
Proof.
  intros H Hid. apply addItem_Done in H.
  destruct H as ((H1 & H2 & H3 & H4) & Hw & Hc & _ & ->).
  apply isEmpty_false in Hid.
  unfold createGoodsInAction, withId.
  cbn -[includes invalidWeight isEmpty trim trimOrNull Actions.addAction].
  rewrite Hid, H1, H2, H3, H4. cbn [orb].
  eexists. split.
  - apply addAction_Done.
    cbn -[includes invalidWeight isEmpty trim trimOrNull].
    rewrite Hid, H1, H2, H3, H4, Hw, Hc. repeat split.
  - repeat split.
Qed.

Lemma accepted_item_yields_goods_in_action_witness :
  exists stored action,
    Items.addItem coil = Done stored
    /\ createGoodsInAction (withId coil "item-1") = Done action
    /\ Actions.actionType action = "in"
    /\ Actions.status action = "pending"
    /\ Actions.location action = None
    /\ Actions.weight action = Items.storedWeight stored
    /\ Actions.itemCode action = Items.storedItemCode stored.
Proof.
  destruct (accepted_item_yields_goods_in_action coil _ "item-1" eq_refl)
    as [action H]; [discriminate|].
  eexists. exists action. split; [reflexivity | exact H].
Defined.

(** X26.  [createGoodsInAction] fails only for missing item data, an
    invalid weight or an invalid category: the action type and the
    status that it passes to [addAction] are always valid. *)
Theorem goods_in_action_errors item message :
  createGoodsInAction item = Throw message ->
  In message ["Invalid item data: missing required fields";
              "Invalid weight value"; "Invalid category"].
Proof.
  unfold createGoodsInAction.
  destruct (_ || _) eqn:E; [intros [= <-]; simpl; tauto|].
  intros H.
  pose proof H as Hin. apply addAction_Throw in Hin; [|reflexivity..].
  destruct Hin as [<-|Hin]; [|simpl; tauto].
  exfalso. unfold Actions.addAction in H.
  cbn -[includes invalidWeight isEmpty trim trimOrNull] in H.
  destruct (isEmpty (Warehouse.id item)), (isEmpty (Warehouse.systemCode item)),
    (isEmpty (Warehouse.itemCode item)), (isEmpty (Warehouse.description item)),
    (isEmpty (Warehouse.category item)); try discriminate E.
  cbn [orb] in H.
  destruct (invalidWeight _); [discriminate H|].
  destruct (negb _); discriminate H.
Qed.

Lemma goods_in_action_errors_witness :
  In "Invalid item data: missing required fields"
     ["Invalid item data: missing required fields";
      "Invalid weight value"; "Invalid category"].
Proof.
  apply (goods_in_action_errors (withId coil EmptyString)). reflexivity.
Defined.

(** X27.  A pick action is stored only with a department: when
    [createPickAction] succeeds, a department was given, it is stored
    trimmed and not empty, and the action is a pending 'out' action with
    a numeric weight above zero. *)
Theorem pick_action_has_a_department item department action :
  createPickAction item department = Done action ->
  (exists text, department = Some text
                /\ Actions.department action = Some (trim text)
                /\ trim text <> EmptyString)
  /\ Actions.actionType action = "out"
  /\ Actions.status action = "pending"
  /\ Actions.location action = trimOrNull (Warehouse.location item)
  /\ exists q, Actions.weight action = Num q /\ 0 < q.
Proof.
  unfold createPickAction.
  destruct (_ || _); [discriminate|].
  destruct (trimOrNull department) as [trimmed|] eqn:D; [|discriminate].
  intros H. apply addAction_Done in H.
  destruct H as (_ & Hw & _ & _ & _ & ->).
  cbn -[includes invalidWeight isEmpty trim trimOrNull] in *.
  destruct (trimOrNull_Some _ _ D) as (text & -> & -> & Hne).
  repeat split.
  - exists text. repeat split; [|exact Hne].
    now rewrite trimOrNull_trimmed.
  - now apply invalidWeight_false.
Qed.

Lemma pick_action_has_a_department_witness :
  exists action,
    createPickAction (withId coil "item-1") (Some " Assembly ") = Done action
    /\ (exists text, Some " Assembly " = Some text
                     /\ Actions.department action = Some (trim text)
                     /\ trim text <> EmptyString)
    /\ Actions.actionType action = "out"
    /\ Actions.status action = "pending"
    /\ Actions.location action = trimOrNull (Warehouse.location (withId coil "item-1"))
    /\ exists q, Actions.weight action = Num q /\ 0 < q.
Proof.
  eexists. split; [reflexivity|].
  apply (pick_action_has_a_department (withId coil "item-1") (Some " Assembly ")).
  reflexivity.
Defined.
